(** * human-gene-coverage: cross-species gene coverage classification

    A shallow embedding of [nar/human-gene-coverage.py] and the properties
    of its identifier normalizer ([map_iri_to_curie]), its causal
    association extractor ([get_causal_gene_phenotype_assocs]) and its
    classification engine ([get_model_gene_stats] driven by [main]).

    Conventions.
    - A Python [str] is a [string], its characters taken as 8-bit (the
      identifiers handled are ASCII); a Python [set] of strings is a
      [gset string]; a [dict] keyed by strings is a [gmap string _] when it
      is written to ([all_models]) and an association list in source order
      when it is only iterated ([CURIE_MAP], [TAXON_MAP]).
    - Python integers are [Z].
    - The evidence index is external.  A paged query is answered by the
      finite sequence of responses the process receives for it; when the
      loop asks for a page beyond that sequence the request fails and the
      function has no result ([None]). *)

From Stdlib Require Import ZArith Ascii String List.
From stdpp Require Import base option gmap sets strings list.

Set Warnings "-clear-no-such-hyp".

Open Scope string_scope.

(** ** Identifier normalizer (source lines 27-30 and 258-265) *)

Module Normalizer.

(** [CURIE_MAP], in the order the source writes it (the order
    [for prefix in CURIE_MAP] visits the keys). *)
Definition CURIE_MAP : list (string * string) :=
  [ ("http://www.ncbi.nlm.nih.gov/gene/", "NCBIGene");
    ("http://purl.obolibrary.org/obo/NCBITaxon_", "NCBITaxon") ].

(** [s.startswith(prefix)]. *)
Fixpoint startswith (s prefix : string) : bool :=
  match prefix with
  | EmptyString => true
  | String p prefix' =>
      match s with
      | EmptyString => false
      | String c s' => if Ascii.eqb c p then startswith s' prefix' else false
      end
  end.

(** *** [re.sub]

    The source passes the table key itself as the regular expression:
    [re.sub(r"{0}".format(prefix), ..., iri)].  In both keys of [CURIE_MAP]
    the only character the regular-expression syntax treats specially is
    the dot, which matches any character but a newline; every other
    character of the keys stands for itself.  [compile] reads a key that
    way, and [re_sub] is [re.sub] on such patterns: with no [count]
    argument it replaces every non-overlapping match, scanning from the
    left.  The replacement texts ("NCBIGene:", "NCBITaxon:") hold no
    backslash, so they are inserted as they are. *)

Inductive atom : Type :=
  | Lit (c : ascii)
  | Dot.

Definition newline : ascii := Ascii.ascii_of_nat 10.

Definition compile_char (c : ascii) : atom :=
  if Ascii.eqb c "." then Dot else Lit c.

Definition compile (pattern : string) : list atom :=
  map compile_char (list_ascii_of_string pattern).

Definition atom_matches (a : atom) (c : ascii) : bool :=
  match a with
  | Lit d => Ascii.eqb c d
  | Dot => negb (Ascii.eqb c newline)
  end.

(** Does the pattern match at the start of [s]? *)
Fixpoint match_here (pat : list atom) (s : string) : bool :=
  match pat with
  | [] => true
  | a :: pat' =>
      match s with
      | EmptyString => false
      | String c s' => if atom_matches a c then match_here pat' s' else false
      end
  end.

(** The scan of [re.sub].  [skip] counts the characters of [s] that a match
    found earlier still covers.  An empty pattern matches (emptily) at every
    position, the end included. *)
Fixpoint sub_scan (pat : list atom) (repl : string) (skip : nat) (s : string)
  : string :=
  match s with
  | EmptyString =>
      match pat with
      | [] => repl
      | _ :: _ => EmptyString
      end
  | String c s' =>
      match skip with
      | S k => sub_scan pat repl k s'
      | O =>
          if match_here pat s then
            match pat with
            | [] => repl ++ String c (sub_scan pat repl 0 s')
            | _ :: pat' => repl ++ sub_scan pat repl (length pat') s'
            end
          else String c (sub_scan pat repl 0 s')
      end
  end.

Definition re_sub (pattern repl s : string) : string :=
  sub_scan (compile pattern) repl 0 s.

(** [map_iri_to_curie] over a table: the [for] loop with its [break]. *)
Fixpoint map_iri_to_curie_in (table : list (string * string)) (iri : string)
  : string :=
  match table with
  | [] => iri
  | (prefix, name) :: rest =>
      if startswith iri prefix
      then re_sub prefix (name ++ ":") iri
      else map_iri_to_curie_in rest iri
  end.

Definition map_iri_to_curie (iri : string) : string :=
  map_iri_to_curie_in CURIE_MAP iri.

(** What the specification asks of the normalizer, in its words: on the
    first entry whose URI prefix is a prefix of the input, the compact
    prefix, a colon, and the remainder of the input verbatim; the input
    itself when no entry matches. *)
Fixpoint drop_chars (n : nat) (s : string) : string :=
  match n, s with
  | S k, String _ s' => drop_chars k s'
  | _, _ => s
  end.

Fixpoint normalize_spec (table : list (string * string)) (uri : string)
  : string :=
  match table with
  | [] => uri
  | (prefix, name) :: rest =>
      if startswith uri prefix
      then name ++ ":" ++ drop_chars (String.length prefix) uri
      else normalize_spec rest uri
  end.

End Normalizer.

Import Normalizer.

(** ** Records of the evidence index (source: the fields read at lines
    120-138 and 238-251) *)

(** One entry of [response['response']['docs']].  [subject] is always
    present; the other three fields are optional ([in doc] tests). *)
Record doc : Type := Doc {
  subject : string;
  relation : option string;
  is_defined_by : option (list string);
  subject_ortholog_closure : option (list string)
}.

(** One response of a paged query: [response['response']['numFound']] and
    [response['response']['docs']]. *)
Record response : Type := Response {
  numFound : Z;
  docs : list doc
}.

(** [params['rows']]. *)
Definition rows : Z := 1000.

(** The records a paged loop goes through: the docs of the responses it
    requests, in the order it reads them.  Both paged loops of the source
    have this shape: [start] begins at 0, [resultCount] at [rows], and each
    response replaces [resultCount] by its [numFound]. *)
Fixpoint pages_read (feed : list response) (start resultCount : Z)
  : option (list doc) :=
  if (start <? resultCount)%Z then
    match feed with
    | [] => None
    | resp :: feed' =>
        match pages_read feed' (start + rows)%Z (numFound resp) with
        | Some ds => Some (docs resp ++ ds)%list
        | None => None
        end
    end
  else Some [].

(** ** Causal association extractor (source lines 216-255) *)

Module Causal.

Definition causal_source : list string :=
  [ "http://data.monarchinitiative.org/ttl/clinvar.ttl";
    "http://data.monarchinitiative.org/ttl/omim.ttl";
    "http://data.monarchinitiative.org/ttl/orphanet.ttl" ].

Definition likely_pathogenic : string := "GENO:0000841".

Definition hpoa : string := "http://data.monarchinitiative.org/ttl/hpoa.ttl".

(** Lines 241-244: the first [continue]. *)
Definition is_likely_pathogenic (d : doc) : bool :=
  match relation d with
  | Some r => bool_decide (r = likely_pathogenic)
  | None => false
  end.

(** Lines 246-249: the second [continue]. *)
Definition lacks_causal_source (d : doc) : bool :=
  match is_defined_by d with
  | Some sources =>
      (length (filter (λ source, source ∈ causal_source) sources) =? 0)%nat
      && negb (bool_decide (sources = [hpoa]))
  | None => false
  end.

(** The body of [for doc in response['response']['docs']] (lines 240-251). *)
Definition causal_doc (result_set : gset string) (d : doc) : gset string :=
  if is_likely_pathogenic d then result_set
  else if lacks_causal_source d then result_set
  else {[ subject d ]} ∪ result_set.

(** The [while params['start'] < resultCount] loop (lines 235-253) over the
    responses received. *)
Fixpoint causal_pages (feed : list response) (start resultCount : Z)
    (result_set : gset string) : option (gset string) :=
  if (start <? resultCount)%Z then
    match feed with
    | [] => None
    | resp :: feed' =>
        causal_pages feed' (start + rows)%Z (numFound resp)
          (foldl causal_doc result_set (docs resp))
    end
  else Some result_set.

Definition get_causal_gene_phenotype_assocs (feed : list response)
  : option (gset string) :=
  causal_pages feed 0%Z rows ∅.

End Causal.

(** ** Classification engine, by state passing
    (source lines 94-142 and 57-91)

    The three accumulators [model_only], [model_human_set] and
    [multi_model_set] are created once in [main] and handed to every call
    of [get_model_gene_stats], which mutates them in place; the
    [results] dictionary holds references to those same objects.  Here
    their contents are passed in and out.  Module [Store] further down
    models the objects themselves and proves that it computes the same
    sets. *)

Module Engine.

(** The [results] dictionary of [get_model_gene_stats]. *)
Record results : Type := Results {
  model_set : gset string;
  model_only : gset string;
  model_human_set : gset string;
  multi_model_set : gset string;
  unmatched_set : gset string
}.

Definition add_model_set (g : string) (r : results) : results :=
  Results ({[ g ]} ∪ model_set r) (model_only r) (model_human_set r)
          (multi_model_set r) (unmatched_set r).

Definition add_model_only (g : string) (r : results) : results :=
  Results (model_set r) ({[ g ]} ∪ model_only r) (model_human_set r)
          (multi_model_set r) (unmatched_set r).

Definition add_model_human_set (g : string) (r : results) : results :=
  Results (model_set r) (model_only r) ({[ g ]} ∪ model_human_set r)
          (multi_model_set r) (unmatched_set r).

Definition add_multi_model_set (g : string) (r : results) : results :=
  Results (model_set r) (model_only r) (model_human_set r)
          ({[ g ]} ∪ multi_model_set r) (unmatched_set r).

Definition add_unmatched_set (g : string) (r : results) : results :=
  Results (model_set r) (model_only r) (model_human_set r)
          (multi_model_set r) ({[ g ]} ∪ unmatched_set r).

Section Classify.

Variables human_genes human_genes_pheno : gset string.

(** The body of [for ortholog in doc['subject_ortholog_closure']]
    (lines 126-136); the boolean is [foundOrtholog]. *)
Definition classify_ortholog (acc : results * bool) (ortholog : string)
  : results * bool :=
  let (r, foundOrtholog) := acc in
  if decide (ortholog ∈ human_genes_pheno) then
    (add_model_set ortholog (add_model_human_set ortholog r), true)
  else if decide (ortholog ∈ human_genes) then
    let r1 := add_model_set ortholog r in
    let r2 := if decide (ortholog ∈ model_only r1)
              then add_multi_model_set ortholog r1
              else add_model_only ortholog r1 in
    (r2, true)
  else (r, foundOrtholog).

(** The body of [for doc in response['response']['docs']]
    (lines 123-138). *)
Definition classify_doc (r : results) (d : doc) : results :=
  let (r1, foundOrtholog) :=
    match subject_ortholog_closure d with
    | Some closure => foldl classify_ortholog (r, false) closure
    | None => (r, false)
    end in
  if foundOrtholog then r1 else add_unmatched_set (subject d) r1.

(** The [while params['start'] < resultCount] loop (lines 117-140). *)
Fixpoint stats_pages (feed : list response) (start resultCount : Z)
    (r : results) : option results :=
  if (start <? resultCount)%Z then
    match feed with
    | [] => None
    | resp :: feed' =>
        stats_pages feed' (start + rows)%Z (numFound resp)
          (foldl classify_doc r (docs resp))
    end
  else Some r.

(** [get_model_gene_stats]: [feed] is what the index answers to the
    paged query for [taxon_curie]. *)
Definition get_model_gene_stats (feed : list response)
    (model_human_set0 model_only0 multi_model_set0 : gset string)
  : option results :=
  stats_pages feed 0%Z rows
    (Results ∅ model_only0 model_human_set0 multi_model_set0 ∅).

(** The accumulators of [main] (lines 57-60). *)
Record main_state : Type := MainState {
  m_model_only : gset string;
  m_all_models : gmap string (gset string);
  m_model_human_set : gset string;
  m_multi_model_set : gset string
}.

Definition main_init : main_state := MainState ∅ ∅ ∅ ∅.

(** The evidence index as [main] sees it: for each taxon CURIE in the
    query filter, the responses to the successive page requests. *)
Variable solr : string → list response.

(** The loop of lines 67-78 over [TAXON_MAP.items()].
    [multi_model_set] is not reassigned by the source; it is the object
    that every call mutated. *)
Fixpoint main_loop (taxon_map : list (string * string)) (st : main_state)
  : option main_state :=
  match taxon_map with
  | [] => Some st
  | (taxon, taxon_iri) :: rest =>
      let taxon_curie := map_iri_to_curie taxon_iri in
      match get_model_gene_stats (solr taxon_curie)
              (m_model_human_set st) (m_model_only st)
              (m_multi_model_set st) with
      | None => None
      | Some r =>
          main_loop rest
            (MainState (model_only r)
                       (<[ taxon := model_set r ]> (m_all_models st))
                       (model_human_set r)
                       (multi_model_set r))
      end
  end.

(** Line 82: [len(human_genes_pheno) - len(model_human_set)]. *)
Definition human_only_count (st : main_state) : Z :=
  Z.of_nat (size human_genes_pheno) - Z.of_nat (size (m_model_human_set st)).

(** Lines 88-89: [one_species_count] of a taxon. *)
Definition one_species_count (st : main_state) (taxon : string)
  : option Z :=
  match m_all_models st !! taxon with
  | None => None
  | Some ms =>
      Some (Z.of_nat (size ms)
            - Z.of_nat (size (ms ∩ m_multi_model_set st))
            - Z.of_nat (size (ms ∩ m_model_human_set st)))%Z
  end.

(** The numbers [main] prints at lines 80-91. *)
Record report : Type := Report {
  models_only : Z;
  models_plus_human : Z;
  human_only : Z;
  multi_species_no_human : Z;
  species_only : list (string * option Z)
}.

Definition main_report (taxon_map : list (string * string))
    (st : main_state) : report :=
  Report (Z.of_nat (size (m_model_only st)))
         (Z.of_nat (size (m_model_human_set st)))
         (human_only_count st)
         (Z.of_nat (size (m_multi_model_set st)))
         (map (λ entry, (entry.1, one_species_count st entry.1)) taxon_map).

(** Lines 57-91 of [main]. *)
Definition main (taxon_map : list (string * string)) : option report :=
  match main_loop taxon_map main_init with
  | Some st => Some (main_report taxon_map st)
  | None => None
  end.

End Classify.

(** [TAXON_MAP] of the source, in its insertion order. *)
Definition TAXON_MAP : list (string * string) :=
  [ ("Mouse", "http://purl.obolibrary.org/obo/NCBITaxon_10090");
    ("ZebraFish", "http://purl.obolibrary.org/obo/NCBITaxon_7955");
    ("Worm", "http://purl.obolibrary.org/obo/NCBITaxon_6239");
    ("Fly", "http://purl.obolibrary.org/obo/NCBITaxon_7227") ].

End Engine.

(** ** Classification engine, over the store of set objects

    The same source lines once more, now with the Python objects kept
    apart from their contents: a [set] value is a reference into a store,
    [add] updates the store at that reference, and two names may refer to
    one object.  This is the model in which "the call does not modify its
    inputs" can be said at all. *)

Module Store.

(** References to [set] objects. *)
Definition loc : Type := positive.

(** The live [set] objects and their contents. *)
Abbreviation store := (gmap loc (gset string)).

(** What the object at [l] holds.  A name of the program always refers to
    a live object; a reference outside the store reads as the empty set only
    to keep the functions total. *)
Definition contents (σ : store) (l : loc) : gset string :=
  default ∅ (σ !! l).

(** [l.add(g)]. *)
Definition set_add (σ : store) (l : loc) (g : string) : store :=
  <[ l := {[ g ]} ∪ contents σ l ]> σ.

(** [set()]: a new object, at a reference not in use. *)
Definition set_new (σ : store) : loc * store :=
  let l := fresh (dom σ) in (l, <[ l := ∅ ]> σ).

(** The [results] dictionary: five references. *)
Record results : Type := Results {
  model_set : loc;
  model_only : loc;
  model_human_set : loc;
  multi_model_set : loc;
  unmatched_set : loc
}.

Section Classify.

Variables human_genes human_genes_pheno : loc.
Variable res : results.

(** Lines 126-136. *)
Definition classify_ortholog (acc : store * bool) (ortholog : string)
  : store * bool :=
  let (σ, foundOrtholog) := acc in
  if decide (ortholog ∈ contents σ human_genes_pheno) then
    let σ1 := set_add σ (model_human_set res) ortholog in
    (set_add σ1 (model_set res) ortholog, true)
  else if decide (ortholog ∈ contents σ human_genes) then
    let σ1 := set_add σ (model_set res) ortholog in
    let σ2 := if decide (ortholog ∈ contents σ1 (model_only res))
              then set_add σ1 (multi_model_set res) ortholog
              else set_add σ1 (model_only res) ortholog in
    (σ2, true)
  else (σ, foundOrtholog).

(** Lines 123-138. *)
Definition classify_doc (σ : store) (d : doc) : store :=
  let (σ1, foundOrtholog) :=
    match subject_ortholog_closure d with
    | Some closure => foldl classify_ortholog (σ, false) closure
    | None => (σ, false)
    end in
  if foundOrtholog then σ1 else set_add σ1 (unmatched_set res) (subject d).

(** Lines 117-140. *)
Fixpoint stats_pages (feed : list response) (start resultCount : Z)
    (σ : store) : option store :=
  if (start <? resultCount)%Z then
    match feed with
    | [] => None
    | resp :: feed' =>
        stats_pages feed' (start + rows)%Z (numFound resp)
          (foldl classify_doc σ (docs resp))
    end
  else Some σ.

End Classify.

(** [get_model_gene_stats] (lines 94-142): the dictionary literal creates
    the two new sets, ['model_set'] first and ['unmatched_set'] last, and
    takes the three accumulators as they are passed. *)
Definition get_model_gene_stats (feed : list response)
    (human_genes human_genes_pheno : loc)
    (model_human_set0 model_only0 multi_model_set0 : loc) (σ : store)
  : option (results * store) :=
  let (l_model_set, σ1) := set_new σ in
  let (l_unmatched_set, σ2) := set_new σ1 in
  let res := Results l_model_set model_only0 model_human_set0
                     multi_model_set0 l_unmatched_set in
  match stats_pages human_genes human_genes_pheno res feed 0%Z rows σ2 with
  | Some σ' => Some (res, σ')
  | None => None
  end.

(** The variables of [main] (lines 57-60): three references and the
    dictionary [all_models] of references. *)
Record main_refs : Type := MainRefs {
  v_model_only : loc;
  v_all_models : gmap string loc;
  v_model_human_set : loc;
  v_multi_model_set : loc
}.

(** Lines 57-60: [model_only = set()], [all_models = dict()],
    [model_human_set = set()], [multi_model_set = set()]. *)
Definition main_init (σ : store) : main_refs * store :=
  let (l_model_only, σ1) := set_new σ in
  let (l_model_human_set, σ2) := set_new σ1 in
  let (l_multi_model_set, σ3) := set_new σ2 in
  (MainRefs l_model_only ∅ l_model_human_set l_multi_model_set, σ3).

Section Main.

Variables human_genes human_genes_pheno : loc.
Variable solr : string → list response.

(** Lines 67-78.  The variable [multi_model_set] is never assigned again:
    every call is handed the object created at line 60. *)
Fixpoint main_loop (taxon_map : list (string * string)) (vars : main_refs)
    (σ : store) : option (main_refs * store) :=
  match taxon_map with
  | [] => Some (vars, σ)
  | (taxon, taxon_iri) :: rest =>
      let taxon_curie := map_iri_to_curie taxon_iri in
      match get_model_gene_stats (solr taxon_curie)
              human_genes human_genes_pheno
              (v_model_human_set vars) (v_model_only vars)
              (v_multi_model_set vars) σ with
      | None => None
      | Some (res, σ') =>
          main_loop rest
            (MainRefs (model_only res)
                      (<[ taxon := model_set res ]> (v_all_models vars))
                      (model_human_set res)
                      (v_multi_model_set vars))
            σ'
      end
  end.

End Main.

End Store.


(** ** Evidence source adapters (source lines 145-213) *)

Module Adapters.

(** [get_gene_phenotype_list] (lines 167-194).  [facet] is
    [response['facet_counts']['facet_fields']['subject']], a list of
    [value, count] pairs ([json.nl] is [arrarr]); the function keeps the
    values that do not start with "FlyBase". *)
Definition get_gene_phenotype_list (facet : list (string * Z))
  : gset string :=
  list_to_set
    ((λ val, val.1)
       <$> filter (λ val, startswith val.1 "FlyBase" = false) facet).

(** [get_human_genes] (lines 197-213).  [results] holds the ["gene.iri"]
    field of each row of the graph query. *)
Definition get_human_genes (results : list string) : gset string :=
  let genes := results in
  list_to_set
    (map_iri_to_curie
       <$> filter (λ val, startswith val "http://flybase.org" = false) genes).

(** One row of the answer to the orthology count query (lines 149-152). *)
Record count_row : Type := CountRow {
  ortholog : Z;
  human : Z
}.

(** [get_orthology_stats] (lines 145-164).  The function reads
    [results[0]] to fill a dictionary [stats] that it never uses again, and
    returns [results] itself; on an empty answer [results[0]] raises. *)
Definition get_orthology_stats (results : list count_row)
  : option (list count_row) :=
  match results with
  | [] => None
  | _ :: _ => Some results
  end.

End Adapters.

(** ** The whole of [main] (source lines 41-91)

    What [main] prints, line by line, and whether it reaches its end.  An
    exception of a fetch is not caught: the lines printed before it stay
    printed and nothing follows. *)

Module Driver.
Import Causal Adapters.

(** The answers of the two external services. *)
Record services : Type := Services {
  (** the paged query of [get_causal_gene_phenotype_assocs] *)
  causal_feed : list response;
  (** the graph query of [get_human_genes] *)
  human_rows : list string;
  (** the facet query of [get_gene_phenotype_list], by taxon CURIE *)
  facets : string → list (string * Z);
  (** the graph query of [get_orthology_stats], by taxon IRI *)
  orthology : string → list count_row;
  (** the paged query of [get_model_gene_stats], by taxon CURIE *)
  stats_feed : string → list response
}.

(** The [print] calls of the source, with the numbers they format. *)
Inductive line : Type :=
  | Fetching                                          (* line 217 *)
  | CausalCount (n : Z)                               (* line 44 *)
  | CliqueCount (n : Z)                               (* line 47 *)
  | GeneCount (taxon : string) (n : Z)                (* line 53 *)
  | HumanPhenoCount (n : Z)                           (* line 55 *)
  | OrthologyCount (taxon : string) (h o : Z)         (* lines 64-65 *)
  | OrthologCount (taxon : string) (n : Z)            (* line 77 *)
  | ModelsOnly (n : Z)                                (* line 80 *)
  | ModelsPlusHuman (n : Z)                           (* line 81 *)
  | HumanOnly (n : Z)                                 (* line 82 *)
  | Rule                                              (* line 84 *)
  | MultiSpecies (n : Z)                              (* line 86 *)
  | SpeciesOnly (taxon : string) (n : option Z).      (* line 91 *)

Section Main.

Variable sv : services.

(** Lines 50-53. *)
Definition gene_count_lines (taxon_map : list (string * string))
  : list line :=
  (λ entry,
     let taxon_curie := map_iri_to_curie entry.2 in
     let gene_list := get_gene_phenotype_list (facets sv taxon_curie) in
     GeneCount entry.1 (Z.of_nat (size gene_list)))
    <$> taxon_map.

(** Lines 62-65: the lines printed, and whether the loop reached its end.
    [gene_counts[0]] exists whenever the call returned. *)
Fixpoint orthology_loop (taxon_map : list (string * string))
  : list line * bool :=
  match taxon_map with
  | [] => ([], true)
  | (taxon, taxon_iri) :: rest =>
      match get_orthology_stats (orthology sv taxon_iri) with
      | Some (row :: _) =>
          let (out, ok) := orthology_loop rest in
          (OrthologyCount taxon (human row) (ortholog row) :: out, ok)
      | _ => ([], false)
      end
  end.

Variables human_genes human_genes_pheno : gset string.

(** Lines 67-78: the lines printed, and the accumulators when the loop
    reached its end. *)
Fixpoint stats_loop (taxon_map : list (string * string))
    (st : Engine.main_state) : list line * option Engine.main_state :=
  match taxon_map with
  | [] => ([], Some st)
  | (taxon, taxon_iri) :: rest =>
      let taxon_curie := map_iri_to_curie taxon_iri in
      match Engine.get_model_gene_stats human_genes human_genes_pheno
              (stats_feed sv taxon_curie)
              (Engine.m_model_human_set st) (Engine.m_model_only st)
              (Engine.m_multi_model_set st) with
      | None => ([], None)
      | Some r =>
          let (out, fin) :=
            stats_loop rest
              (Engine.MainState (Engine.model_only r)
                 (<[ taxon := Engine.model_set r ]>
                    (Engine.m_all_models st))
                 (Engine.model_human_set r)
                 (Engine.multi_model_set r)) in
          (OrthologCount taxon (Z.of_nat (size (Engine.model_set r))) :: out,
           fin)
      end
  end.

(** Lines 80-91. *)
Definition report_lines (taxon_map : list (string * string))
    (st : Engine.main_state) : list line :=
  ([ ModelsOnly (Z.of_nat (size (Engine.m_model_only st)));
     ModelsPlusHuman (Z.of_nat (size (Engine.m_model_human_set st)));
     HumanOnly (Engine.human_only_count human_genes_pheno st);
     Rule;
     MultiSpecies (Z.of_nat (size (Engine.m_multi_model_set st))) ]
   ++ ((λ entry,
          SpeciesOnly entry.1 (Engine.one_species_count st entry.1))
         <$> taxon_map))%list.

End Main.

(** [main] (lines 41-91). *)
Definition main (sv : services) (taxon_map : list (string * string))
  : list line * bool :=
  match get_causal_gene_phenotype_assocs (causal_feed sv) with
  | None => ([ Fetching ], false)
  | Some human_causal =>
      let human_genes := get_human_genes (human_rows sv) in
      let human_genes_pheno :=
        get_gene_phenotype_list (facets sv "NCBITaxon:9606") in
      let head :=
        ([ Fetching;
           CausalCount (Z.of_nat (size human_causal));
           CliqueCount (Z.of_nat (size human_genes)) ]
         ++ gene_count_lines sv taxon_map
         ++ [ HumanPhenoCount (Z.of_nat (size human_genes_pheno)) ])%list in
      match orthology_loop sv taxon_map with
      | (out1, false) => ((head ++ out1)%list, false)
      | (out1, true) =>
          match stats_loop sv human_genes human_genes_pheno taxon_map
                  Engine.main_init with
          | (out2, None) => ((head ++ out1 ++ out2)%list, false)
          | (out2, Some st) =>
              ((head ++ out1 ++ out2
                  ++ report_lines human_genes_pheno taxon_map st)%list,
               true)
          end
      end
  end.

End Driver.

(** * Notions used to state the properties

    Nothing below this line is part of the program: these are the
    predicates, views and example inputs that the statements further down
    are written with. *)

Module NormalizerNotions.

(** Does the pattern match somewhere in [s]? *)
Fixpoint occurs (pat : list atom) (s : string) : bool :=
  match_here pat s
  || match s with
     | EmptyString => false
     | String _ s' => occurs pat s'
     end.

End NormalizerNotions.

Module CausalNotions.
Import Causal.

(** The condition under which the specification keeps a record: its
    relation is not the likely-pathogenic code, and it has no provenance
    list, or a source of the list is in the causal allowlist, or the list is
    exactly the curated-phenotype-annotation source. *)
Definition kept_by_spec (d : doc) : Prop :=
  relation d ≠ Some likely_pathogenic
  ∧ (is_defined_by d = None
     ∨ (∃ sources source,
          is_defined_by d = Some sources
          ∧ source ∈ sources ∧ source ∈ causal_source)
     ∨ is_defined_by d = Some [hpoa]).

End CausalNotions.

Module EngineNotions.
Import Engine.

Section Invariants.

Variables human_genes human_genes_pheno : gset string.

(** What one call keeps true of the sets it works on, relative to the
    accumulators [mo0] and [mh0] it was handed. *)
Definition step_inv (mo0 mh0 : gset string) (r : results) : Prop :=
  model_human_set r ⊆ human_genes_pheno
  ∧ multi_model_set r ## human_genes_pheno
  ∧ model_set r ⊆ model_only r ∪ model_human_set r
  ∧ mo0 ⊆ model_only r
  ∧ mh0 ⊆ model_human_set r.

(** What [main] keeps true of its accumulators between two organisms. *)
Definition main_inv (st : main_state) : Prop :=
  m_model_human_set st ⊆ human_genes_pheno
  ∧ m_multi_model_set st ## human_genes_pheno
  ∧ ∀ taxon ms, m_all_models st !! taxon = Some ms →
      ms ⊆ m_model_only st ∪ m_model_human_set st.

(** From [r] to [r'] the closure members [M] were classified.  The three
    sets modelSet, modelHuman and modelOnly are determined by [M];
    multiModel is only bounded, because it also depends on how often a
    member occurs. *)
Definition classified (M : gset string) (r r' : results) : Prop :=
  model_set r' = model_set r ∪ (M ∩ (human_genes_pheno ∪ human_genes))
  ∧ model_human_set r' = model_human_set r ∪ (M ∩ human_genes_pheno)
  ∧ model_only r'
    = model_only r ∪ ((M ∩ human_genes) ∖ human_genes_pheno)
  ∧ multi_model_set r
    ∪ (((M ∩ human_genes) ∖ human_genes_pheno) ∩ model_only r)
    ⊆ multi_model_set r'
  ∧ multi_model_set r'
    ⊆ multi_model_set r ∪ ((M ∩ human_genes) ∖ human_genes_pheno).

End Invariants.

(** The closure members of the records read. *)
Definition closure_of (d : doc) : list string :=
  default [] (subject_ortholog_closure d).

Definition members (ds : list doc) : gset string :=
  list_to_set (ds ≫= closure_of).

(** A scenario of three organisms and one record each. *)
Module Scenario.

Definition any_evidence : gset string := {[ "H1"; "H2" ]}.
Definition human_genes : gset string := {[ "H1"; "H2"; "H3"; "H4" ]}.

Definition taxon_map : list (string * string) :=
  [ ("A", "http://purl.obolibrary.org/obo/NCBITaxon_1");
    ("B", "http://purl.obolibrary.org/obo/NCBITaxon_2");
    ("C", "http://purl.obolibrary.org/obo/NCBITaxon_3") ].

Definition record (subj : string) (closure : list string) : doc :=
  Doc subj None None (Some closure).

Definition solr (taxon_curie : string) : list response :=
  if decide (taxon_curie = "NCBITaxon:1") then
    [ Response 1 [ record "a1" ["H1"; "H3"] ] ]
  else if decide (taxon_curie = "NCBITaxon:2") then
    [ Response 1 [ record "b1" ["H3"; "H4"] ] ]
  else if decide (taxon_curie = "NCBITaxon:3") then
    [ Response 1 [ record "c1" ["H4"] ] ]
  else [ Response 0 [] ].

Definition final : option main_state :=
  main_loop human_genes any_evidence solr taxon_map main_init.

End Scenario.

(** The state [main] reaches in the scenario. *)
Definition scenario_final : main_state :=
  MainState {[ "H3"; "H4" ]}
            (<[ "C" := {[ "H4" ]} ]>
               (<[ "B" := {[ "H3"; "H4" ]} ]>
                  (<[ "A" := {[ "H1"; "H3" ]} ]> ∅)))
            {[ "H1" ]}
            {[ "H3"; "H4" ]}.

(** A run over one organism, two of whose records have the same human
    gene in their closures. *)
Module OneOrganism.

Definition any_evidence : gset string := ∅.
Definition human_genes : gset string := {[ "H3" ]}.

Definition taxon_map : list (string * string) :=
  [ ("Mouse", "http://purl.obolibrary.org/obo/NCBITaxon_10090") ].

Definition solr (taxon_curie : string) : list response :=
  if decide (taxon_curie = "NCBITaxon:10090") then
    [ Response 2 [ Scenario.record "MGI:1" ["H3"];
                   Scenario.record "MGI:2" ["H3"] ] ]
  else [ Response 0 [] ].

End OneOrganism.

End EngineNotions.

Module StoreNotions.
Import Store.

(** The references a call of [get_model_gene_stats] writes through. *)
Definition written (res : results) : gset loc :=
  {[ model_set res; model_only res; model_human_set res;
     multi_model_set res; unmatched_set res ]}.

(** [σ'] holds what [σ] holds at every reference outside [W]. *)
Definition same_outside (W : gset loc) (σ σ' : store) : Prop :=
  ∀ l, l ∉ W → σ' !! l = σ !! l.

Definition view (res : results) (σ : store) : Engine.results :=
  Engine.Results (contents σ (model_set res))
                 (contents σ (model_only res))
                 (contents σ (model_human_set res))
                 (contents σ (multi_model_set res))
                 (contents σ (unmatched_set res)).

Definition separate (human_genes human_genes_pheno : loc) (res : results)
  : Prop :=
  NoDup [ model_set res; model_only res; model_human_set res;
          multi_model_set res; unmatched_set res ]
  ∧ (human_genes ∉ written res)
  ∧ (human_genes_pheno ∉ written res).

(** The objects a call is handed: all live, the three accumulators
    distinct, the two inputs none of them. *)
Definition handed_apart (human_genes human_genes_pheno : loc)
    (model_human_set0 model_only0 multi_model_set0 : loc) (σ : store)
  : Prop :=
  NoDup [ model_only0; model_human_set0; multi_model_set0 ]
  ∧ (human_genes ∉ [ model_only0; model_human_set0; multi_model_set0 ])
  ∧ (human_genes_pheno
     ∉ [ model_only0; model_human_set0; multi_model_set0 ])
  ∧ (∀ l, l ∈ [ human_genes; human_genes_pheno;
                model_only0; model_human_set0; multi_model_set0 ] →
          l ∈ dom σ).

(** The variables of [main], read through the store. *)
Definition main_view (vars : main_refs) (σ : store) : Engine.main_state :=
  Engine.MainState (contents σ (v_model_only vars))
                   (contents σ <$> v_all_models vars)
                   (contents σ (v_model_human_set vars))
                   (contents σ (v_multi_model_set vars)).

(** Between two organisms: the accumulators are handed apart, and the sets
    kept in [all_models] are live objects that are no accumulator. *)
Definition main_apart (human_genes human_genes_pheno : loc)
    (vars : main_refs) (σ : store) : Prop :=
  handed_apart human_genes human_genes_pheno
    (v_model_human_set vars) (v_model_only vars) (v_multi_model_set vars) σ
  ∧ ∀ taxon l,
      v_all_models vars !! taxon = Some l →
      l ∈ dom σ
      ∧ l ≠ v_model_only vars
      ∧ l ≠ v_model_human_set vars
      ∧ l ≠ v_multi_model_set vars.

(** A call on a store of five objects: humanGenes at 1, AnyEvidenceSet at
    2, and the accumulators modelHuman, modelOnly, multiModel at 3, 4, 5. *)
Definition five_sets : store :=
  <[ 1%positive := {[ "H1"; "H3" ]} ]>
    (<[ 2%positive := {[ "H1" ]} ]>
       (<[ 3%positive := ∅ ]> (<[ 4%positive := ∅ ]> (<[ 5%positive := ∅ ]> ∅)))).

Definition one_page : list response :=
  [ Response 2 [ Doc "m1" None None (Some ["H1"; "H3"]);
                 Doc "m2" None None (Some ["H3"; "X"]) ] ].

Definition call_outcome : results * store :=
  default (Results 1 1 1 1 1, ∅)%positive
    (get_model_gene_stats one_page 1 2 3 4 5 five_sets)%positive.

(** Objects only grow: every reference reads a superset afterwards. *)
Definition grows (σ σ' : store) : Prop :=
  ∀ l, contents σ l ⊆ contents σ' l.

(** A store that holds only the two input sets of the scenario:
    humanGenes at 1 and AnyEvidenceSet at 2. *)
Definition two_inputs : store :=
  <[ 1%positive := EngineNotions.Scenario.human_genes ]>
    (<[ 2%positive := EngineNotions.Scenario.any_evidence ]> ∅).

(** A store of four objects in which AnyEvidenceSet and the accumulator
    modelOnly are to be one object: humanGenes at 1, that object at 2,
    modelHuman at 3 and multiModel at 5. *)
Definition shared_sets : store :=
  <[ 1%positive := {[ "H1"; "H3" ]} ]>
    (<[ 2%positive := {[ "H1" ]} ]>
       (<[ 3%positive := ∅ ]> (<[ 5%positive := ∅ ]> ∅))).

Definition shared_outcome : results * store :=
  default (Results 1 1 1 1 1, ∅)%positive
    (get_model_gene_stats one_page 1 2 3 2 5 shared_sets)%positive.

End StoreNotions.

Module PagingNotions.

(** The number of pages a paged loop still requests when it stands at
    offset [start] and the index reports [total] matches: none when
    [start] has reached [total], else the pages of [rows] records that
    cover the rest. *)
Definition pages_left (start total : Z) : nat :=
  Z.to_nat ((total - start + rows - 1) / rows).

(** The number of pages a paged loop requests in all when every response
    reports [total] matches: the first page always, and the pages that cover
    [total] records. *)
Definition pages_needed (total : Z) : nat :=
  Z.to_nat (Z.max 1 ((total + rows - 1) / rows)).

(** The docs of the first [k] responses. *)
Definition first_pages (k : nat) (feed : list response) : list doc :=
  concat (docs <$> take k feed).

(** An index that reports 2500 matches on each of its three pages. *)
Definition three_pages : list response :=
  [ Response 2500 [ Doc "g1" None None None ];
    Response 2500 [ Doc "g2" None None None ];
    Response 2500 [ Doc "g3" None None None ] ].

End PagingNotions.

Module AdapterNotions.

(** Does the character [c] occur in [s]? *)
Fixpoint has_char (c : ascii) (s : string) : bool :=
  match s with
  | EmptyString => false
  | String x s' => Ascii.eqb x c || has_char c s'
  end.

(** The two keys of [CURIE_MAP]. *)
Definition gene_key : string := "http://www.ncbi.nlm.nih.gov/gene/".
Definition taxon_key : string := "http://purl.obolibrary.org/obo/NCBITaxon_".

End AdapterNotions.

Module RunNotions.
Import Engine EngineNotions.

(** How often [g] occurs in [l]. *)
Definition occurrences (g : string) (l : list string) : nat :=
  length (filter (λ x, x = g) l).

(** The closure members of the records of a list, with repetitions, in the
    order the classification goes through them. *)
Definition closures (ds : list doc) : list string := ds ≫= closure_of.

(** The closure members that a run of [main] goes through, organism after
    organism; [None] when a fetch fails. *)
Fixpoint run_closures (solr : string → list response)
    (taxon_map : list (string * string)) : option (list string) :=
  match taxon_map with
  | [] => Some []
  | (_, taxon_iri) :: rest =>
      match pages_read (solr (map_iri_to_curie taxon_iri)) 0%Z rows with
      | None => None
      | Some ds =>
          match run_closures solr rest with
          | Some l => Some (closures ds ++ l)%list
          | None => None
          end
      end
  end.

(** A record is matched when one of its closure members is in one of the
    two input sets. *)
Definition matched (human_genes human_genes_pheno : gset string) (d : doc)
  : Prop :=
  ∃ g, g ∈ closure_of d ∧ (g ∈ human_genes_pheno ∨ g ∈ human_genes).

(** The three accumulators of a [results] value. *)
Definition accumulators (r : results)
  : gset string * gset string * gset string :=
  (model_only r, model_human_set r, multi_model_set r).

(** What [main] keeps true of its sets between two organisms, beyond
    [main_inv]. *)
Definition run_inv (human_genes human_genes_pheno : gset string)
    (st : main_state) : Prop :=
  m_multi_model_set st ⊆ m_model_only st
  ∧ m_model_only st ## human_genes_pheno
  ∧ m_model_only st ⊆ human_genes
  ∧ ∀ taxon ms, m_all_models st !! taxon = Some ms →
      ms ⊆ human_genes ∪ human_genes_pheno.

(** One page of two records, the second with no human gene in its
    closure, and what a call on it returns from empty accumulators when
    humanGenes is {H3} and AnyEvidenceSet is empty. *)
Definition two_records : list response :=
  [ Response 2 [ Doc "m1" None None (Some ["H3"]);
                 Doc "m2" None None (Some ["X"]) ] ].

Definition two_records_result : results :=
  Results {[ "H3" ]} {[ "H3" ]} ∅ ∅ {[ "m2" ]}.

(** The state that the run over [OneOrganism] ends in. *)
Definition one_organism_final : main_state :=
  MainState {[ "H3" ]} {[ "Mouse" := {[ "H3" ]} ]} ∅ {[ "H3" ]}.

End RunNotions.

Module DriverNotions.
Import Engine EngineNotions Adapters Driver.

(** The services of a small run: the scenario of three organisms behind
    the paged query, one causal record, four human genes of which two have
    a phenotype, and one row for every orthology count. *)
Definition demo_services : services :=
  Services
    [ Response 1 [ Doc "H1" None None None ] ]
    [ "H1"; "H2"; "H3"; "H4" ]
    (λ taxon_curie,
       if decide (taxon_curie = "NCBITaxon:9606")
       then [ ("H1", 3%Z); ("H2", 1%Z) ] else [])
    (λ _, [ CountRow 5 4 ])
    Scenario.solr.

End DriverNotions.


(** * Properties of the classification engine *)

Module EngineFacts.
Import Engine EngineNotions.

(** The two intersections that [one_species_count] subtracts do not
    overlap, so together they are no larger than the organism's set. *)
Lemma intersections_within (ms mm mh : gset string) :
  mm ## mh → (size (ms ∩ mm) + size (ms ∩ mh) ≤ size ms)%nat.
Proof.
  intros Hd. rewrite <- size_union by set_solver.
  apply subseteq_size. set_solver.
Qed.

Section Facts.

Variables human_genes human_genes_pheno : gset string.

Abbreviation classify_ortholog :=
  (classify_ortholog human_genes human_genes_pheno).
Abbreviation classify_doc := (classify_doc human_genes human_genes_pheno).
Abbreviation stats_pages := (stats_pages human_genes human_genes_pheno).
Abbreviation get_model_gene_stats :=
  (get_model_gene_stats human_genes human_genes_pheno).
Abbreviation step_inv := (step_inv human_genes_pheno).
Abbreviation main_inv := (main_inv human_genes_pheno).

(** A property of [results] that the two elementary updates keep is kept
    by every loop of [get_model_gene_stats]. *)
Section Preservation.

Variable P : results → Prop.
Hypothesis P_ortholog :
  ∀ r b g, P r → P (classify_ortholog (r, b) g).1.
Hypothesis P_unmatched : ∀ r g, P r → P (add_unmatched_set g r).

Lemma closure_preserves (closure : list string) :
  ∀ r b, P r → P (foldl classify_ortholog (r, b) closure).1.
Proof.
  induction closure as [|g closure IH]; intros r b Hr; cbn [foldl];
    [done|].
  destruct (classify_ortholog (r, b) g) as [r1 b1] eqn:E.
  apply IH. specialize (P_ortholog r b g Hr). by rewrite E in P_ortholog.
Qed.

Lemma doc_preserves (r : results) (d : doc) : P r → P (classify_doc r d).
Proof.
  intros Hr. unfold Engine.classify_doc.
  destruct (subject_ortholog_closure d) as [closure|].
  - pose proof (closure_preserves closure r false Hr) as H.
    destruct (foldl classify_ortholog (r, false) closure) as [r1 []];
      simpl in H; auto.
  - by apply P_unmatched.
Qed.

Lemma docs_preserves (ds : list doc) :
  ∀ r, P r → P (foldl classify_doc r ds).
Proof.
  induction ds as [|d ds IH]; intros r Hr; cbn [foldl]; [done|].
  apply IH. by apply doc_preserves.
Qed.

Lemma pages_preserves (feed : list response) :
  ∀ start resultCount r r',
    P r → stats_pages feed start resultCount r = Some r' → P r'.
Proof.
  induction feed as [|resp feed IH]; intros start rc r r' Hr; simpl;
    destruct (start <? rc)%Z; intros H; simplify_eq; try done.
  eapply IH; [|exact H]. by apply docs_preserves.
Qed.

End Preservation.

Lemma step_inv_ortholog mo0 mh0 r b g :
  step_inv mo0 mh0 r → step_inv mo0 mh0 (classify_ortholog (r, b) g).1.
Proof.
  unfold EngineNotions.step_inv, Engine.classify_ortholog.
  intros (Hmh & Hmm & Hms & Hmo0 & Hmh0).
  repeat case_decide; simpl in *; set_solver.
Qed.

Lemma step_inv_unmatched mo0 mh0 r g :
  step_inv mo0 mh0 r → step_inv mo0 mh0 (add_unmatched_set g r).
Proof. unfold EngineNotions.step_inv. simpl. tauto. Qed.

Lemma get_model_gene_stats_inv feed mh mo mm r :
  mh ⊆ human_genes_pheno → mm ## human_genes_pheno →
  get_model_gene_stats feed mh mo mm = Some r →
  step_inv mo mh r.
Proof.
  intros Hmh Hmm. unfold Engine.get_model_gene_stats.
  apply (pages_preserves (step_inv mo mh)).
  - intros; by apply step_inv_ortholog.
  - intros; by apply step_inv_unmatched.
  - unfold EngineNotions.step_inv; simpl. set_solver.
Qed.

Lemma main_inv_init : main_inv main_init.
Proof.
  unfold EngineNotions.main_inv, main_init; simpl.
  split_and!; [set_solver..|].
  intros taxon ms H. by rewrite lookup_empty in H.
Qed.

Variable solr : string → list response.

Abbreviation main_loop := (main_loop human_genes human_genes_pheno solr).

Lemma main_loop_inv (taxon_map : list (string * string)) :
  ∀ st st', main_inv st → main_loop taxon_map st = Some st' → main_inv st'.
Proof.
  induction taxon_map as [|[taxon taxon_iri] rest IH]; intros st st' Hst;
    simpl; intros H; [by simplify_eq|].
  destruct (get_model_gene_stats _ _ _ _) as [r|] eqn:E; [|done].
  destruct Hst as (Hmh & Hmm & Hall).
  apply get_model_gene_stats_inv in E as (E1 & E2 & E3 & E4 & E5); try done.
  eapply IH; [|exact H].
  unfold EngineNotions.main_inv; simpl. split_and!; try done.
  intros taxon' ms. rewrite lookup_insert. case_decide.
  - intros [= <-]. done.
  - intros Hl. specialize (Hall _ _ Hl). set_solver.
Qed.

Lemma main_loop_sound taxon_map st :
  main_loop taxon_map main_init = Some st → main_inv st.
Proof. apply main_loop_inv, main_inv_init. Qed.

End Facts.

(** *** What a call computes, in terms of the closure members it sees *)

Section Classified.

Variables human_genes human_genes_pheno : gset string.

Abbreviation classified := (classified human_genes human_genes_pheno).

Lemma classified_refl (r : results) : classified ∅ r r.
Proof. unfold EngineNotions.classified. split_and!; set_solver. Qed.

Lemma classified_trans (M1 M2 : gset string) (r r1 r2 : results) :
  classified M1 r r1 → classified M2 r1 r2 → classified (M1 ∪ M2) r r2.
Proof.
  unfold EngineNotions.classified.
  intros (Ha1 & Ha2 & Ha3 & Ha4 & Ha5) (Hb1 & Hb2 & Hb3 & Hb4 & Hb5).
  rewrite Hb1, Hb2, Hb3, Ha1, Ha2, Ha3. rewrite Ha3 in Hb4.
  clear Ha1 Ha2 Ha3 Hb1 Hb2 Hb3.
  split_and!.
  - clear. set_solver.
  - clear. set_solver.
  - clear. set_solver.
  - clear Ha5 Hb5. intros g Hg. apply Hb4.
    apply elem_of_union in Hg as [Hg|Hg].
    + apply elem_of_union. left. apply Ha4. apply elem_of_union. by left.
    + apply elem_of_intersection in Hg as [Hg Hmo].
      apply elem_of_difference in Hg as [Hg Hn].
      apply elem_of_intersection in Hg as [[Hg|Hg]%elem_of_union Hhg].
      * apply elem_of_union. left. apply Ha4. set_solver.
      * set_solver.
  - clear Ha4 Hb4. intros g Hg. apply Hb5 in Hg.
    apply elem_of_union in Hg as [Hg|Hg].
    + apply Ha5 in Hg. set_solver.
    + set_solver.
Qed.

Lemma classified_ortholog (r : results) (b : bool) (g : string) :
  classified {[ g ]} r
    (classify_ortholog human_genes human_genes_pheno (r, b) g).1.
Proof.
  unfold EngineNotions.classified, classify_ortholog.
  repeat case_decide; simpl in *; split_and!; set_solver.
Qed.

Lemma classified_closure (closure : list string) :
  ∀ r b,
    classified (list_to_set closure) r
      (foldl (classify_ortholog human_genes human_genes_pheno)
             (r, b) closure).1.
Proof.
  induction closure as [|g closure IH]; intros r b; cbn [foldl list_to_set].
  - apply classified_refl.
  - pose proof (classified_ortholog r b g) as Hg.
    destruct (classify_ortholog human_genes human_genes_pheno (r, b) g)
      as [r1 b1].
    eapply classified_trans; [exact Hg|apply IH].
Qed.

Lemma classified_unmatched (M : gset string) (r r1 : results) (s : string) :
  classified M r r1 → classified M r (add_unmatched_set s r1).
Proof. unfold EngineNotions.classified. simpl. tauto. Qed.

Lemma classified_doc (r : results) (d : doc) :
  classified (list_to_set (closure_of d)) r
    (classify_doc human_genes human_genes_pheno r d).
Proof.
  unfold classify_doc, closure_of.
  destruct (subject_ortholog_closure d) as [closure|]; simpl.
  - pose proof (classified_closure closure r false) as H.
    destruct (foldl _ (r, false) closure) as [r1 []];
      [exact H|by apply classified_unmatched].
  - apply classified_unmatched, classified_refl.
Qed.

Lemma classified_docs (ds : list doc) :
  ∀ r,
    classified (members ds) r
      (foldl (classify_doc human_genes human_genes_pheno) r ds).
Proof.
  unfold members.
  induction ds as [|d ds IH]; intros r; cbn [foldl].
  - apply classified_refl.
  - rewrite bind_cons, list_to_set_app_L.
    eapply classified_trans; [apply classified_doc|apply IH].
Qed.

(** The paged loop is the classification of the records read. *)
Lemma stats_pages_read (feed : list response) :
  ∀ start resultCount r,
    stats_pages human_genes human_genes_pheno feed start resultCount r
    = foldl (classify_doc human_genes human_genes_pheno) r
        <$> pages_read feed start resultCount.
Proof.
  induction feed as [|resp feed IH]; intros start rc r; simpl;
    destruct (start <? rc)%Z; try done.
  rewrite IH.
  destruct (pages_read feed (start + rows) (numFound resp)) as [ds|];
    simpl; [|done].
  by rewrite foldl_app.
Qed.

Lemma get_model_gene_stats_classified (feed : list response)
    (ds : list doc) (mh mo mm : gset string) :
  pages_read feed 0%Z rows = Some ds →
  ∃ r, get_model_gene_stats human_genes human_genes_pheno feed mh mo mm
       = Some r
       ∧ classified (members ds) (Results ∅ mo mh mm ∅) r.
Proof.
  intros Hread. unfold get_model_gene_stats.
  rewrite stats_pages_read, Hread. simpl.
  eexists. split; [done|]. apply classified_docs.
Qed.

End Classified.

Lemma scenario_runs : Scenario.final = Some scenario_final.
Proof. vm_compute. reflexivity. Qed.

(** C1 (the source departs from the claim): multiModel is meant to hold
    genes matched under two distinct organisms, but the source tests
    membership in [model_only], which already holds the genes matched
    earlier under the organism being processed.  In the run over the single
    organism above, the gene H3 is matched by two records of that organism
    and ends in multiModel. *)
Theorem multi_model_within_one_organism :
  ∃ st : main_state,
    main_loop OneOrganism.human_genes OneOrganism.any_evidence
      OneOrganism.solr OneOrganism.taxon_map main_init = Some st
    ∧ length OneOrganism.taxon_map = 1%nat
    ∧ m_all_models st = {[ "Mouse" := {[ "H3" ]} ]}
    ∧ m_model_only st = {[ "H3" ]}
    ∧ "H3" ∈ m_multi_model_set st.
Proof.
  exists (MainState {[ "H3" ]} {[ "Mouse" := {[ "H3" ]} ]} ∅ {[ "H3" ]}).
  split_and!;
    first [ vm_compute; reflexivity | simpl; by apply elem_of_singleton ].
Qed.

(** C2: one closure member [g] examined by the classification step.  If [g]
    is in AnyEvidenceSet it is added to the organism's modelSet and to
    modelHuman (and modelOnly and multiModel stay as they were).  Otherwise,
    if [g] is in humanGenes, it is added to modelSet, it is added to
    multiModel exactly when it was already in modelOnly, and afterwards it
    is in modelOnly.  Otherwise none of the four sets changes. *)
Theorem classify_ortholog_cases
    (human_genes human_genes_pheno : gset string)
    (r : results) (found : bool) (g : string) :
  let r' := (classify_ortholog human_genes human_genes_pheno (r, found) g).1 in
  (g ∈ human_genes_pheno →
     model_set r' = {[ g ]} ∪ model_set r
     ∧ model_human_set r' = {[ g ]} ∪ model_human_set r
     ∧ model_only r' = model_only r
     ∧ multi_model_set r' = multi_model_set r)
  ∧ (g ∉ human_genes_pheno → g ∈ human_genes →
     model_set r' = {[ g ]} ∪ model_set r
     ∧ (g ∈ model_only r → multi_model_set r' = {[ g ]} ∪ multi_model_set r)
     ∧ (g ∉ model_only r → multi_model_set r' = multi_model_set r)
     ∧ g ∈ model_only r'
     ∧ model_only r' = {[ g ]} ∪ model_only r
     ∧ model_human_set r' = model_human_set r)
  ∧ (g ∉ human_genes_pheno → g ∉ human_genes →
     model_set r' = model_set r
     ∧ model_only r' = model_only r
     ∧ model_human_set r' = model_human_set r
     ∧ multi_model_set r' = multi_model_set r).
Proof.
  unfold classify_ortholog. split_and!.
  - intros Hin. rewrite decide_True by done. done.
  - intros Hout Hin.
    rewrite decide_False by done. rewrite decide_True by done.
    cbn [add_model_set model_only]. case_decide; simpl.
    + split_and!; [done|done|tauto|done| |done].
      apply leibniz_equiv. set_solver.
    + split_and!; [done|tauto|done| |done|done].
      set_solver.
  - intros Hout1 Hout2. by rewrite !decide_False by done.
Qed.

(** The closure members of the scenario, sorted by the two input sets. *)
Lemma scenario_A_evidence :
  ({[ "H1"; "H3" ]} : gset string) ∩ Scenario.any_evidence = {[ "H1" ]}.
Proof. vm_compute. reflexivity. Qed.

Lemma scenario_A_model :
  (({[ "H1"; "H3" ]} : gset string) ∩ Scenario.human_genes)
    ∖ Scenario.any_evidence = {[ "H3" ]}.
Proof. vm_compute. reflexivity. Qed.

Lemma scenario_B_evidence :
  ({[ "H3"; "H4" ]} : gset string) ∩ Scenario.any_evidence = ∅.
Proof. vm_compute. reflexivity. Qed.

Lemma scenario_B_model :
  (({[ "H3"; "H4" ]} : gset string) ∩ Scenario.human_genes)
    ∖ Scenario.any_evidence = {[ "H3"; "H4" ]}.
Proof. vm_compute. reflexivity. Qed.

Lemma scenario_C_evidence :
  ({[ "H4" ]} : gset string) ∩ Scenario.any_evidence = ∅.
Proof. vm_compute. reflexivity. Qed.

Lemma scenario_C_model :
  (({[ "H4" ]} : gset string) ∩ Scenario.human_genes)
    ∖ Scenario.any_evidence = {[ "H4" ]}.
Proof. vm_compute. reflexivity. Qed.

Lemma scenario_C_any :
  ({[ "H4" ]} : gset string)
    ∩ (Scenario.any_evidence ∪ Scenario.human_genes) = {[ "H4" ]}.
Proof. vm_compute. reflexivity. Qed.

(** A gene [x] matched under a first and a second organism and a gene [y]
    matched under the second and a third are both in multiModel at the end,
    and nothing else is. *)
Lemma scenario_multi_model (x y : string)
    (moA mmA moB mmB mmC : gset string) :
  moA = ∅ ∪ {[ x ]} →
  mmA ⊆ ∅ ∪ {[ x ]} →
  moB = moA ∪ {[ x; y ]} →
  mmA ∪ ({[ x; y ]} ∩ moA) ⊆ mmB →
  mmB ⊆ mmA ∪ {[ x; y ]} →
  mmB ∪ ({[ y ]} ∩ moB) ⊆ mmC →
  mmC ⊆ mmB ∪ {[ y ]} →
  mmC = {[ x; y ]}.
Proof. intros -> HmmA -> Hlo1 Hup1 Hlo2 Hup2. set_solver. Qed.

(** C3: the end-to-end scenario.  AnyEvidenceSet = {H1, H2},
    humanGenes = {H1, H2, H3, H4}, and three organisms A, B, C processed in
    that order from the empty state, whose records have the closure members
    {H1, H3}, {H3, H4} and {H4} (however the members are spread over the
    records and pages of an organism): the run ends with modelHuman = {H1},
    modelOnly = {H3, H4}, multiModel = {H3, H4}, the human-only count is 1
    and the exclusive count of C is 0. *)
Theorem end_to_end_scenario
    (solr : string → list response) (dsA dsB dsC : list doc) :
  pages_read (solr "NCBITaxon:1") 0%Z rows = Some dsA →
  members dsA = {[ "H1"; "H3" ]} →
  pages_read (solr "NCBITaxon:2") 0%Z rows = Some dsB →
  members dsB = {[ "H3"; "H4" ]} →
  pages_read (solr "NCBITaxon:3") 0%Z rows = Some dsC →
  members dsC = {[ "H4" ]} →
  ∃ st : main_state,
    main_loop Scenario.human_genes Scenario.any_evidence solr
      Scenario.taxon_map main_init = Some st
    ∧ m_model_human_set st = {[ "H1" ]}
    ∧ m_model_only st = {[ "H3"; "H4" ]}
    ∧ m_multi_model_set st = {[ "H3"; "H4" ]}
    ∧ human_only_count Scenario.any_evidence st = 1%Z
    ∧ one_species_count st "C" = Some 0%Z.
Proof.
  intros HA MA HB MB HC MC.
  unfold Scenario.taxon_map, main_init. cbn [main_loop].
  change (map_iri_to_curie "http://purl.obolibrary.org/obo/NCBITaxon_1")
    with "NCBITaxon:1".
  change (map_iri_to_curie "http://purl.obolibrary.org/obo/NCBITaxon_2")
    with "NCBITaxon:2".
  change (map_iri_to_curie "http://purl.obolibrary.org/obo/NCBITaxon_3")
    with "NCBITaxon:3".
  cbn [m_model_human_set m_model_only m_multi_model_set m_all_models].
  destruct (get_model_gene_stats_classified Scenario.human_genes
              Scenario.any_evidence _ dsA ∅ ∅ ∅ HA) as (rA & -> & CA).
  destruct (get_model_gene_stats_classified Scenario.human_genes
              Scenario.any_evidence _ dsB (model_human_set rA)
              (model_only rA) (multi_model_set rA) HB) as (rB & -> & CB).
  destruct (get_model_gene_stats_classified Scenario.human_genes
              Scenario.any_evidence _ dsC (model_human_set rB)
              (model_only rB) (multi_model_set rB) HC) as (rC & -> & CC).
  eexists. split; [reflexivity|].
  cbn [m_model_human_set m_model_only m_multi_model_set m_all_models].
  unfold classified in CA, CB, CC. rewrite MA in CA. rewrite MB in CB.
  rewrite MC in CC. cbn [model_set model_only model_human_set
                         multi_model_set] in CA, CB, CC.
  rewrite scenario_A_evidence, scenario_A_model in CA.
  rewrite scenario_B_evidence, scenario_B_model in CB.
  rewrite scenario_C_evidence, scenario_C_model, scenario_C_any in CC.
  destruct CA as (_ & A2 & A3 & _ & A5).
  destruct CB as (_ & B2 & B3 & B4 & B5).
  destruct CC as (C1 & C2 & C3 & C4 & C5).
  assert (Emm : multi_model_set rC = {[ "H3"; "H4" ]})
    by (eapply scenario_multi_model; eassumption).
  rewrite A2 in B2. rewrite B2 in C2. rewrite A3 in B3. rewrite B3 in C3.
  unfold human_only_count, one_species_count.
  cbn [m_model_human_set m_model_only m_multi_model_set m_all_models].
  rewrite lookup_insert_eq, Emm, C1, C2, C3.
  split_and!; vm_compute; reflexivity.
Qed.

Lemma end_to_end_scenario_witness :
  ∃ st : main_state,
    main_loop Scenario.human_genes Scenario.any_evidence Scenario.solr
      Scenario.taxon_map main_init = Some st
    ∧ m_model_human_set st = {[ "H1" ]}
    ∧ m_model_only st = {[ "H3"; "H4" ]}
    ∧ m_multi_model_set st = {[ "H3"; "H4" ]}
    ∧ human_only_count Scenario.any_evidence st = 1%Z
    ∧ one_species_count st "C" = Some 0%Z.
Proof.
  apply (end_to_end_scenario Scenario.solr
           [ Scenario.record "a1" ["H1"; "H3"] ]
           [ Scenario.record "b1" ["H3"; "H4"] ]
           [ Scenario.record "c1" ["H4"] ]);
    vm_compute; reflexivity.
Defined.

(** C4: partition completeness.  At the end of every run, a gene in the
    modelSet of some organism is in modelOnly or in modelHuman. *)
Theorem model_set_classified
    (human_genes human_genes_pheno : gset string)
    (solr : string → list response) (taxon_map : list (string * string))
    (st : main_state) (taxon : string) (ms : gset string) (g : string) :
  main_loop human_genes human_genes_pheno solr taxon_map main_init = Some st →
  m_all_models st !! taxon = Some ms →
  g ∈ ms →
  g ∈ m_model_only st ∪ m_model_human_set st.
Proof.
  intros Hrun Hl Hg.
  apply main_loop_sound in Hrun as (_ & _ & Hall).
  by apply (Hall taxon ms).
Qed.

Lemma model_set_classified_witness :
  "H4" ∈ m_model_only scenario_final ∪ m_model_human_set scenario_final.
Proof.
  apply (model_set_classified Scenario.human_genes Scenario.any_evidence
           Scenario.solr Scenario.taxon_map scenario_final "C" {[ "H4" ]}).
  - vm_compute. reflexivity.
  - vm_compute. reflexivity.
  - apply (bool_decide_unpack _). vm_compute. exact I.
Defined.

(** C5: after every per-organism step of a run (the state reached after
    the first [k] organisms, for every [k]) and so at its end, modelHuman is
    a subset of AnyEvidenceSet, and the human-only count
    |AnyEvidenceSet| - |modelHuman| is not negative. *)
Theorem model_human_within_evidence
    (human_genes human_genes_pheno : gset string)
    (solr : string → list response) (taxon_map : list (string * string))
    (k : nat) (st : main_state) :
  main_loop human_genes human_genes_pheno solr (take k taxon_map) main_init
    = Some st →
  m_model_human_set st ⊆ human_genes_pheno
  ∧ (0 ≤ human_only_count human_genes_pheno st)%Z.
Proof.
  intros Hrun. apply main_loop_sound in Hrun as (Hmh & _ & _).
  split; [done|]. unfold human_only_count.
  apply subseteq_size in Hmh. lia.
Qed.

Lemma model_human_within_evidence_witness :
  m_model_human_set scenario_final ⊆ Scenario.any_evidence
  ∧ (0 ≤ human_only_count Scenario.any_evidence scenario_final)%Z.
Proof.
  apply (model_human_within_evidence Scenario.human_genes
           Scenario.any_evidence Scenario.solr Scenario.taxon_map 3).
  vm_compute. reflexivity.
Defined.

(** C9: throughout a run multiModel and modelHuman are disjoint.  A closure
    member in AnyEvidenceSet goes to modelHuman and leaves modelOnly and
    multiModel alone; every single update keeps multiModel outside
    AnyEvidenceSet and modelHuman inside it; so at the end of a run the two
    are disjoint, the two intersections subtracted by the exclusive count
    of an organism do not overlap, and that count is not negative. *)
Theorem multi_model_apart_from_model_human
    (human_genes human_genes_pheno : gset string)
    (solr : string → list response) (taxon_map : list (string * string))
    (st : main_state) :
  main_loop human_genes human_genes_pheno solr taxon_map main_init = Some st →
  (∀ r found g,
      g ∈ human_genes_pheno →
      let r' :=
        (classify_ortholog human_genes human_genes_pheno (r, found) g).1 in
      g ∈ model_human_set r'
      ∧ model_only r' = model_only r
      ∧ multi_model_set r' = multi_model_set r)
  ∧ (∀ r found g,
      multi_model_set r ## human_genes_pheno →
      model_human_set r ⊆ human_genes_pheno →
      let r' :=
        (classify_ortholog human_genes human_genes_pheno (r, found) g).1 in
      multi_model_set r' ## human_genes_pheno
      ∧ model_human_set r' ⊆ human_genes_pheno)
  ∧ m_multi_model_set st ## human_genes_pheno
  ∧ m_model_human_set st ⊆ human_genes_pheno
  ∧ m_multi_model_set st ## m_model_human_set st
  ∧ (∀ taxon ms,
      m_all_models st !! taxon = Some ms →
      (size (ms ∩ m_multi_model_set st) + size (ms ∩ m_model_human_set st)
       ≤ size ms)%nat)
  ∧ (∀ taxon n, one_species_count st taxon = Some n → (0 ≤ n)%Z).
Proof.
  intros Hrun. apply main_loop_sound in Hrun as (Hmh & Hmm & _).
  assert (Hd : m_multi_model_set st ## m_model_human_set st) by set_solver.
  split_and!; try done.
  - intros r found g Hg. unfold classify_ortholog.
    rewrite decide_True by done. simpl. split_and!; [set_solver|done..].
  - intros r found g Hr1 Hr2. unfold classify_ortholog.
    repeat case_decide; simpl; set_solver.
  - intros taxon ms _. by apply intersections_within.
  - intros taxon n. unfold one_species_count.
    destruct (m_all_models st !! taxon) as [ms|]; [|done].
    intros [= <-].
    pose proof (intersections_within ms _ _ Hd). lia.
Qed.

Lemma multi_model_apart_from_model_human_witness :
  m_multi_model_set scenario_final ## m_model_human_set scenario_final
  ∧ (∀ taxon n,
       one_species_count scenario_final taxon = Some n → (0 ≤ n)%Z).
Proof.
  assert (Hrun : main_loop Scenario.human_genes Scenario.any_evidence
                   Scenario.solr Scenario.taxon_map main_init
                 = Some scenario_final) by (vm_compute; reflexivity).
  pose proof (multi_model_apart_from_model_human Scenario.human_genes
                Scenario.any_evidence Scenario.solr Scenario.taxon_map
                scenario_final Hrun) as H.
  split; apply H.
Defined.

End EngineFacts.


(** * Properties of the causal association extractor *)

Module CausalFacts.
Import Causal CausalNotions.

Lemma filter_length_zero (sources : list string) :
  length (filter (λ source, source ∈ causal_source) sources) = 0%nat
  ↔ ∀ source, source ∈ sources → source ∉ causal_source.
Proof.
  induction sources as [|x sources IH].
  - split; [|done]. intros _ source Hin. by apply elem_of_nil in Hin.
  - rewrite filter_cons. case_decide as Hx; simpl.
    + split; [done|]. intros H. exfalso. apply (H x); [left|done].
    + rewrite IH. split.
      * intros H source [->|Hin]%elem_of_cons; auto.
      * intros H source Hin. apply H. by right.
Qed.

Lemma is_likely_pathogenic_spec (d : doc) :
  is_likely_pathogenic d = true ↔ relation d = Some likely_pathogenic.
Proof.
  unfold is_likely_pathogenic. destruct (relation d) as [r|]; [|done].
  rewrite bool_decide_eq_true. split; [by intros ->|by intros [= ->]].
Qed.

Lemma lacks_causal_source_spec (d : doc) :
  lacks_causal_source d = true
  ↔ ∃ sources, is_defined_by d = Some sources
      ∧ (∀ source, source ∈ sources → source ∉ causal_source)
      ∧ sources ≠ [hpoa].
Proof.
  unfold lacks_causal_source. destruct (is_defined_by d) as [sources|].
  - rewrite andb_true_iff, Nat.eqb_eq, filter_length_zero,
      negb_true_iff, bool_decide_eq_false.
    split.
    + intros [H1 H2]. by exists sources.
    + intros (? & [= <-] & H1 & H2). done.
  - split; [done|]. by intros (? & ? & _).
Qed.

Lemma accepted_iff_kept (d : doc) :
  is_likely_pathogenic d = false ∧ lacks_causal_source d = false
  ↔ kept_by_spec d.
Proof.
  unfold kept_by_spec.
  rewrite <- !not_true_iff_false, is_likely_pathogenic_spec,
    lacks_causal_source_spec.
  split.
  - intros [Hrel Hsrc]. split; [done|].
    destruct (is_defined_by d) as [sources|] eqn:E; [|by left].
    right.
    destruct (decide (sources = [hpoa])) as [->|Hne]; [by right|].
    left.
    destruct (decide (Exists (λ source, source ∈ causal_source) sources))
      as [Hex|Hnex].
    + apply Exists_exists in Hex as (source & Hin & Hc).
      by exists sources, source.
    + exfalso. apply Hsrc. exists sources. split_and!; [done| |done].
      intros source Hin Hc. apply Hnex, Exists_exists. by exists source.
  - intros [Hrel Hsrc]. split; [done|].
    intros (sources & E & Hnone & Hne).
    destruct Hsrc as [Hn|[(sources' & source & E' & Hin & Hc)|Hh]].
    + congruence.
    + rewrite E in E'. injection E' as <-. by apply (Hnone source).
    + congruence.
Qed.

Lemma causal_pages_read (feed : list response) :
  ∀ start resultCount result_set,
    causal_pages feed start resultCount result_set
    = foldl causal_doc result_set <$> pages_read feed start resultCount.
Proof.
  induction feed as [|resp feed IH]; intros start rc rs; simpl;
    destruct (start <? rc)%Z; try done.
  rewrite IH.
  destruct (pages_read feed (start + rows) (numFound resp)) as [ds|];
    simpl; [|done].
  by rewrite foldl_app.
Qed.

Lemma causal_doc_member (result_set : gset string) (d : doc) (g : string) :
  g ∈ causal_doc result_set d
  ↔ g ∈ result_set ∨ (subject d = g ∧ kept_by_spec d).
Proof.
  unfold causal_doc. rewrite <- accepted_iff_kept.
  destruct (is_likely_pathogenic d), (lacks_causal_source d);
    rewrite ?elem_of_union, ?elem_of_singleton; naive_solver.
Qed.

Lemma causal_docs_member (ds : list doc) :
  ∀ result_set g,
    g ∈ foldl causal_doc result_set ds
    ↔ g ∈ result_set ∨ ∃ d, d ∈ ds ∧ subject d = g ∧ kept_by_spec d.
Proof.
  induction ds as [|d ds IH]; intros rs g; cbn [foldl].
  - split; [by left|]. intros [H|(d & Hin & _)]; [done|].
    by apply elem_of_nil in Hin.
  - rewrite IH, causal_doc_member. split.
    + intros [[Hg|[Hs Hk]]|(d' & Hin & Hs & Hk)].
      * by left.
      * right. exists d. split; [left|done].
      * right. exists d'. split; [by right|done].
    + intros [Hg|(d' & [->|Hin]%elem_of_cons & Hs & Hk)].
      * left. by left.
      * left. by right.
      * right. by exists d'.
Qed.

(** C6: the extractor adds a record's subject gene to the result set if and
    only if the record is kept by the condition above.  A kept record adds
    its subject; a record that is not kept leaves the result set as it was;
    in particular a record whose relation is the likely-pathogenic code is
    left out whatever its provenance.  Over a whole extraction, the genes
    of the result are the subjects of the kept records read. *)
Theorem causal_doc_adds_iff_kept (result_set : gset string) (d : doc) :
  (kept_by_spec d → causal_doc result_set d = {[ subject d ]} ∪ result_set)
  ∧ (¬ kept_by_spec d → causal_doc result_set d = result_set)
  ∧ (relation d = Some likely_pathogenic →
     causal_doc result_set d = result_set)
  ∧ (∀ feed result,
       get_causal_gene_phenotype_assocs feed = Some result →
       ∃ ds, pages_read feed 0%Z rows = Some ds
             ∧ ∀ g, g ∈ result
                    ↔ ∃ d', d' ∈ ds ∧ subject d' = g ∧ kept_by_spec d').
Proof.
  pose proof (accepted_iff_kept d) as Hk. unfold causal_doc.
  split_and!.
  - intros [-> ->]%Hk. done.
  - intros Hn.
    destruct (is_likely_pathogenic d), (lacks_causal_source d); try done.
    exfalso. by apply Hn, Hk.
  - intros ->%is_likely_pathogenic_spec. done.
  - intros feed result. unfold get_causal_gene_phenotype_assocs.
    rewrite causal_pages_read.
    destruct (pages_read feed 0 rows) as [ds|]; simpl; [|done].
    intros [= <-]. exists ds. split; [done|]. intros g.
    rewrite causal_docs_member. set_solver.
Qed.

End CausalFacts.


(** * Properties of the identifier normalizer *)

Module NormalizerFacts.
Import NormalizerNotions.

(** An input that no table key is a prefix of comes back unchanged. *)
Lemma map_iri_to_curie_in_fallback (table : list (string * string))
    (iri : string) :
  (∀ prefix name, (prefix, name) ∈ table → startswith iri prefix = false) →
  map_iri_to_curie_in table iri = iri.
Proof.
  induction table as [|[prefix name] rest IH]; intros H; simpl; [done|].
  rewrite (H prefix name) by left.
  apply IH. intros p n Hin. apply (H p n). by right.
Qed.

(** The first entry whose key is a prefix of the input decides the result:
    the loop stops there. *)
Lemma map_iri_to_curie_in_first (before after : list (string * string))
    (prefix name iri : string) :
  (∀ p n, (p, n) ∈ before → startswith iri p = false) →
  startswith iri prefix = true →
  map_iri_to_curie_in (before ++ (prefix, name) :: after)%list iri
  = re_sub prefix (name ++ ":") iri.
Proof.
  induction before as [|[p n] before IH]; intros Hb Hp; simpl.
  - by rewrite Hp.
  - rewrite (Hb p n) by left. apply IH; [|done].
    intros p' n' Hin. apply (Hb p' n'). by right.
Qed.

Lemma compile_length (pattern : string) :
  length (compile pattern) = String.length pattern.
Proof.
  unfold compile. rewrite length_map.
  induction pattern as [|c pattern IH]; simpl; [done|]. by rewrite IH.
Qed.

(** A string matches the pattern read off any of its prefixes. *)
Lemma startswith_match_here (prefix : string) :
  ∀ s, startswith s prefix = true → match_here (compile prefix) s = true.
Proof.
  induction prefix as [|p prefix IH]; intros s; [done|].
  destruct s as [|c s]; [done|]. cbn [startswith].
  destruct (Ascii.eqb c p) eqn:E; [|done]. intros H.
  apply Ascii.eqb_eq in E as ->.
  change (compile (String p prefix))
    with (compile_char p :: compile prefix).
  cbn [match_here]. rewrite (IH s H).
  unfold compile_char. destruct (Ascii.eqb p ".") eqn:E; simpl.
  - apply Ascii.eqb_eq in E as ->. reflexivity.
  - by rewrite Ascii.eqb_refl.
Qed.

(** Characters still covered by a match are dropped. *)
Lemma sub_scan_skip (pat : list atom) (repl : string) (s : string) :
  ∀ skip,
    sub_scan pat repl skip s = sub_scan pat repl 0 (drop_chars skip s).
Proof.
  induction s as [|c s IH]; intros [|k]; try done.
  cbn [sub_scan drop_chars]. apply IH.
Qed.

(** On an input that starts with the key, [re.sub] writes the replacement
    and goes on scanning what follows the key. *)
Lemma re_sub_head (prefix repl s : string) :
  prefix ≠ EmptyString →
  startswith s prefix = true →
  re_sub prefix repl s
  = repl ++ re_sub prefix repl (drop_chars (String.length prefix) s).
Proof.
  intros Hne Hs. unfold re_sub.
  pose proof (startswith_match_here prefix s Hs) as Hm.
  pose proof (compile_length prefix) as Hl.
  destruct prefix as [|p prefix]; [done|].
  destruct s as [|c s]; [done|].
  change (compile (String p prefix))
    with (compile_char p :: compile prefix) in *.
  cbn [sub_scan]. rewrite Hm. f_equal.
  rewrite sub_scan_skip. simpl in Hl. injection Hl as Hl. by rewrite Hl.
Qed.

Lemma sub_scan_no_occurrence (pat : list atom) (repl : string) :
  ∀ s, occurs pat s = false → sub_scan pat repl 0 s = s.
Proof.
  induction s as [|c s IH]; intros H.
  - destruct pat; [done|done].
  - cbn [occurs] in H. apply orb_false_iff in H as [H1 H2].
    cbn [sub_scan]. rewrite H1. f_equal. by apply IH.
Qed.

Lemma append_assoc (a b c : string) : (a ++ b) ++ c = a ++ b ++ c.
Proof.
  induction a as [|x a IH]; [done|].
  change (String x ((a ++ b) ++ c) = String x (a ++ b ++ c)). by f_equal.
Qed.

(** Where the remainder of the input holds no further match of the key read
    as a pattern, the source returns what the specification describes. *)
Lemma map_iri_to_curie_in_verbatim (table : list (string * string))
    (iri : string) :
  (∀ prefix name,
     (prefix, name) ∈ table →
     prefix ≠ EmptyString
     ∧ occurs (compile prefix) (drop_chars (String.length prefix) iri)
       = false) →
  map_iri_to_curie_in table iri = normalize_spec table iri.
Proof.
  induction table as [|[prefix name] rest IH]; intros H; simpl; [done|].
  destruct (startswith iri prefix) eqn:E.
  - destruct (H prefix name) as [Hne Ho]; [left|].
    rewrite re_sub_head by done. unfold re_sub.
    rewrite sub_scan_no_occurrence by done.
    by rewrite append_assoc.
  - apply IH. intros p n Hin. apply (H p n). by right.
Qed.

(** C7 (the source departs from the claim): the normalizer does try the
    entries in table order, stops at the first matching key and returns an
    unmatched input unchanged, but it does not keep the remainder verbatim.
    The key is handed to [re.sub] as a pattern, which rewrites every match
    in the input: on the input below, which starts with the first key and
    holds it a second time, the source returns "NCBIGene:NCBIGene:1" where
    the claim asks for "NCBIGene:" followed by the remainder as it is. *)
Theorem map_iri_to_curie_rewrites_remainder :
  let iri :=
    "http://www.ncbi.nlm.nih.gov/gene/http://www.ncbi.nlm.nih.gov/gene/1" in
  startswith iri "http://www.ncbi.nlm.nih.gov/gene/" = true
  ∧ map_iri_to_curie iri = "NCBIGene:NCBIGene:1"
  ∧ normalize_spec CURIE_MAP iri
    = "NCBIGene:http://www.ncbi.nlm.nih.gov/gene/1"
  ∧ map_iri_to_curie iri ≠ normalize_spec CURIE_MAP iri.
Proof. repeat split; try reflexivity. vm_compute. discriminate. Qed.

(** The output of the normalizer under the default table starts with none
    of the two keys. *)
Lemma map_iri_to_curie_no_key (x prefix name : string) :
  (prefix, name) ∈ CURIE_MAP →
  startswith (map_iri_to_curie x) prefix = false.
Proof.
  intros Hin. unfold map_iri_to_curie, CURIE_MAP in *.
  cbn [map_iri_to_curie_in].
  destruct (startswith x "http://www.ncbi.nlm.nih.gov/gene/") eqn:E1;
    [|destruct (startswith x "http://purl.obolibrary.org/obo/NCBITaxon_")
        eqn:E2].
  - rewrite re_sub_head by done.
    repeat (apply elem_of_cons in Hin as [[= -> ->]|Hin]); [done|done|].
    by apply elem_of_nil in Hin.
  - rewrite re_sub_head by done.
    repeat (apply elem_of_cons in Hin as [[= -> ->]|Hin]); [done|done|].
    by apply elem_of_nil in Hin.
  - repeat (apply elem_of_cons in Hin as [[= -> ->]|Hin]); [done|done|].
    by apply elem_of_nil in Hin.
Qed.

(** C8: once the normalized string starts with no key of the table,
    normalizing it again changes nothing; under the default two-entry table
    that is the case for every input, because a normalized output never
    starts with one of the two keys. *)
Theorem normalize_idempotent :
  (∀ (table : list (string * string)) (x : string),
     (∀ prefix name,
        (prefix, name) ∈ table →
        startswith (map_iri_to_curie_in table x) prefix = false) →
     map_iri_to_curie_in table (map_iri_to_curie_in table x)
     = map_iri_to_curie_in table x)
  ∧ (∀ x prefix name,
       (prefix, name) ∈ CURIE_MAP →
       startswith (map_iri_to_curie x) prefix = false)
  ∧ (∀ x, map_iri_to_curie (map_iri_to_curie x) = map_iri_to_curie x).
Proof.
  split_and!.
  - intros table x H. by apply map_iri_to_curie_in_fallback.
  - apply map_iri_to_curie_no_key.
  - intros x. apply map_iri_to_curie_in_fallback.
    intros prefix name. apply map_iri_to_curie_no_key.
Qed.

Lemma normalize_idempotent_witness :
  map_iri_to_curie_in CURIE_MAP
    (map_iri_to_curie_in CURIE_MAP "http://www.ncbi.nlm.nih.gov/gene/1234")
  = map_iri_to_curie_in CURIE_MAP "http://www.ncbi.nlm.nih.gov/gene/1234".
Proof.
  apply (proj1 normalize_idempotent CURIE_MAP).
  intros prefix name Hin.
  repeat (apply elem_of_cons in Hin as [[= -> ->]|Hin]);
    [reflexivity|reflexivity|].
  by apply elem_of_nil in Hin.
Defined.

End NormalizerFacts.


(** * The store model: what a call writes, and agreement with the
    state-passing model *)

Module StoreFacts.
Import Store StoreNotions.

Lemma lookup_set_add (σ : store) (l l' : loc) (g : string) :
  set_add σ l g !! l'
  = if decide (l = l') then Some ({[ g ]} ∪ contents σ l) else σ !! l'.
Proof. unfold set_add. apply lookup_insert. Qed.

Lemma contents_set_add_eq (σ : store) (l : loc) (g : string) :
  contents (set_add σ l g) l = {[ g ]} ∪ contents σ l.
Proof. unfold contents at 1. by rewrite lookup_set_add, decide_True. Qed.

Lemma contents_set_add_ne (σ : store) (l l' : loc) (g : string) :
  l ≠ l' → contents (set_add σ l g) l' = contents σ l'.
Proof. intros H. unfold contents. by rewrite lookup_set_add, decide_False. Qed.

Lemma same_outside_refl (W : gset loc) (σ : store) : same_outside W σ σ.
Proof. by intros l _. Qed.

Lemma same_outside_trans (W : gset loc) (σ1 σ2 σ3 : store) :
  same_outside W σ1 σ2 → same_outside W σ2 σ3 → same_outside W σ1 σ3.
Proof. intros H12 H23 l Hl. by rewrite H23, H12. Qed.

Lemma same_outside_set_add (W : gset loc) (σ : store) (l : loc) (g : string) :
  l ∈ W → same_outside W σ (set_add σ l g).
Proof.
  intros Hl l' Hl'. rewrite lookup_set_add, decide_False; [done|].
  by intros ->.
Qed.

(** A relation between the store before and after that is reflexive,
    transitive and holds across every [add] through a reference of [res]
    holds across every loop of [get_model_gene_stats]. *)
Section Writes.

Variables human_genes human_genes_pheno : loc.
Variable res : results.
Variable R : store → store → Prop.
Hypothesis R_refl : ∀ σ, R σ σ.
Hypothesis R_trans : ∀ σ1 σ2 σ3, R σ1 σ2 → R σ2 σ3 → R σ1 σ3.
Hypothesis R_add : ∀ σ l g, l ∈ written res → R σ (set_add σ l g).

Lemma writes_ortholog (σ : store) (b : bool) (g : string) :
  R σ (classify_ortholog human_genes human_genes_pheno res (σ, b) g).1.
Proof.
  unfold classify_ortholog.
  repeat case_decide; cbn [fst];
    repeat (eapply R_trans;
            [|apply R_add; unfold written; set_solver]);
    apply R_refl.
Qed.

Lemma writes_closure (closure : list string) :
  ∀ σ b,
    R σ (foldl (classify_ortholog human_genes human_genes_pheno res)
               (σ, b) closure).1.
Proof.
  induction closure as [|g closure IH]; intros σ b; cbn [foldl].
  - apply R_refl.
  - pose proof (writes_ortholog σ b g) as H.
    destruct (classify_ortholog _ _ _ (σ, b) g) as [σ1 b1].
    eapply R_trans; [exact H|apply IH].
Qed.

Lemma writes_doc (σ : store) (d : doc) :
  R σ (classify_doc human_genes human_genes_pheno res σ d).
Proof.
  unfold classify_doc.
  assert (Hun : ∀ σ1 s, R σ1 (set_add σ1 (unmatched_set res) s)).
  { intros. apply R_add. unfold written. set_solver. }
  destruct (subject_ortholog_closure d) as [closure|]; [|apply Hun].
  pose proof (writes_closure closure σ false) as H.
  destruct (foldl _ (σ, false) closure) as [σ1 []]; [exact H|].
  eapply R_trans; [exact H|apply Hun].
Qed.

Lemma writes_docs (ds : list doc) :
  ∀ σ, R σ (foldl (classify_doc human_genes human_genes_pheno res) σ ds).
Proof.
  induction ds as [|d ds IH]; intros σ; cbn [foldl].
  - apply R_refl.
  - eapply R_trans; [apply writes_doc|apply IH].
Qed.

Lemma writes_pages (feed : list response) :
  ∀ start resultCount σ σ',
    stats_pages human_genes human_genes_pheno res feed start resultCount σ
    = Some σ' →
    R σ σ'.
Proof.
  induction feed as [|resp feed IH]; intros start rc σ σ'; simpl;
    destruct (start <? rc)%Z; intros H; simplify_eq;
    try apply R_refl.
  eapply R_trans; [apply writes_docs|by eapply IH].
Qed.

End Writes.

(** First instance: nothing outside the five references changes. *)
Section Frame.

Variables human_genes human_genes_pheno : loc.
Variable res : results.

Lemma frame_ortholog (σ : store) (b : bool) (g : string) :
  same_outside (written res) σ
    (classify_ortholog human_genes human_genes_pheno res (σ, b) g).1.
Proof.
  apply writes_ortholog;
    eauto using same_outside_refl, same_outside_trans, same_outside_set_add.
Qed.

Lemma frame_doc (σ : store) (d : doc) :
  same_outside (written res) σ
    (classify_doc human_genes human_genes_pheno res σ d).
Proof.
  apply writes_doc;
    eauto using same_outside_refl, same_outside_trans, same_outside_set_add.
Qed.

Lemma frame_docs (ds : list doc) (σ : store) :
  same_outside (written res) σ
    (foldl (classify_doc human_genes human_genes_pheno res) σ ds).
Proof.
  apply writes_docs;
    eauto using same_outside_refl, same_outside_trans, same_outside_set_add.
Qed.

Lemma frame_pages (feed : list response) (start resultCount : Z)
    (σ σ' : store) :
  stats_pages human_genes human_genes_pheno res feed start resultCount σ
  = Some σ' →
  same_outside (written res) σ σ'.
Proof.
  apply writes_pages;
    eauto using same_outside_refl, same_outside_trans, same_outside_set_add.
Qed.

(** Second instance: no object disappears. *)
Lemma live_pages (feed : list response) (start resultCount : Z)
    (σ σ' : store) :
  stats_pages human_genes human_genes_pheno res feed start resultCount σ
  = Some σ' →
  dom σ ⊆ dom σ'.
Proof.
  apply (writes_pages _ _ _ (λ σ1 σ2, dom σ1 ⊆ dom σ2)).
  - done.
  - intros σ1 σ2 σ3 H12 H23. by etrans.
  - intros σ1 l g _. unfold set_add. rewrite dom_insert_L.
    apply union_subseteq_r.
Qed.

End Frame.

(** *** Agreement with the state-passing model

    Read through the five references of [res], a store is a value of the
    state-passing model.  When the five references are distinct objects
    and the two inputs are none of them, each step on the store is the
    step of the state-passing model on what the store holds. *)

Lemma same_outside_contents (W : gset loc) (σ σ' : store) (l : loc) :
  same_outside W σ σ' → l ∉ W → contents σ' l = contents σ l.
Proof. intros H Hl. unfold contents. by rewrite H. Qed.

Ltac store_simpl :=
  repeat first [ rewrite contents_set_add_eq
               | rewrite contents_set_add_ne by congruence ].

Section Agreement.

Variables human_genes human_genes_pheno : loc.
Variable res : results.
Hypothesis Hsep : separate human_genes human_genes_pheno res.

Lemma agree_ortholog (σ : store) (b : bool) (g : string) :
  let out := classify_ortholog human_genes human_genes_pheno res (σ, b) g in
  (view res out.1, out.2)
  = Engine.classify_ortholog (contents σ human_genes)
      (contents σ human_genes_pheno) (view res σ, b) g.
Proof.
  destruct Hsep as (Hnd & Hhg & Hhgp). clear Hsep.
  destruct res as [l1 l2 l3 l4 l5]. unfold written in *. simpl in *.
  repeat (apply NoDup_cons in Hnd as [?%not_elem_of_cons Hnd]).
  rewrite ?not_elem_of_cons in *. destruct_and!.
  unfold classify_ortholog, Engine.classify_ortholog, view.
  cbn [model_set model_only model_human_set multi_model_set unmatched_set
       Engine.model_only Engine.add_model_set fst snd].
  destruct (decide (g ∈ contents σ human_genes_pheno)).
  { cbn [fst snd]. unfold Engine.add_model_set, Engine.add_model_human_set.
    simpl. store_simpl. done. }
  destruct (decide (g ∈ contents σ human_genes)); [|done].
  store_simpl.
  destruct (decide (g ∈ contents σ l2)); cbn [fst snd];
    unfold Engine.add_multi_model_set, Engine.add_model_only; simpl;
    store_simpl; done.
Qed.

Lemma agree_closure (closure : list string) :
  ∀ σ b,
    let out := foldl (classify_ortholog human_genes human_genes_pheno res)
                     (σ, b) closure in
    (view res out.1, out.2)
    = foldl (Engine.classify_ortholog (contents σ human_genes)
               (contents σ human_genes_pheno))
            (view res σ, b) closure.
Proof.
  destruct Hsep as (_ & Hhg & Hhgp).
  induction closure as [|g closure IH]; intros σ b; cbn [foldl]; [done|].
  pose proof (agree_ortholog σ b g) as Hstep.
  pose proof (frame_ortholog human_genes human_genes_pheno res σ b g)
    as Hframe.
  destruct (classify_ortholog human_genes human_genes_pheno res (σ, b) g)
    as [σ1 b1].
  cbn [fst snd] in Hstep, Hframe. cbv zeta in Hstep.
  rewrite <- Hstep. cbv zeta in IH. rewrite IH.
  by rewrite !(same_outside_contents _ _ _ _ Hframe).
Qed.

Lemma agree_doc (σ : store) (d : doc) :
  view res (classify_doc human_genes human_genes_pheno res σ d)
  = Engine.classify_doc (contents σ human_genes)
      (contents σ human_genes_pheno) (view res σ) d.
Proof.
  assert (Hun : ∀ σ1 s,
            view res (set_add σ1 (unmatched_set res) s)
            = Engine.add_unmatched_set s (view res σ1)).
  { destruct Hsep as (Hnd & _ & _).
    destruct res as [l1 l2 l3 l4 l5]. simpl in *.
    repeat (apply NoDup_cons in Hnd as [?%not_elem_of_cons Hnd]).
    rewrite ?not_elem_of_cons in *. destruct_and!.
    intros σ1 s. unfold view, Engine.add_unmatched_set. simpl.
    store_simpl. done. }
  unfold classify_doc, Engine.classify_doc.
  destruct (subject_ortholog_closure d) as [closure|]; [|apply Hun].
  pose proof (agree_closure closure σ false) as H. cbv zeta in H.
  rewrite <- H.
  destruct (foldl _ (σ, false) closure) as [σ1 []]; cbn [fst snd];
    [done|apply Hun].
Qed.

Lemma agree_docs (ds : list doc) :
  ∀ σ,
    view res (foldl (classify_doc human_genes human_genes_pheno res) σ ds)
    = foldl (Engine.classify_doc (contents σ human_genes)
               (contents σ human_genes_pheno))
            (view res σ) ds.
Proof.
  destruct Hsep as (_ & Hhg & Hhgp).
  induction ds as [|d ds IH]; intros σ; cbn [foldl]; [done|].
  rewrite IH, agree_doc.
  pose proof (frame_doc human_genes human_genes_pheno res σ d) as Hframe.
  by rewrite !(same_outside_contents _ _ _ _ Hframe).
Qed.

Lemma agree_pages (feed : list response) :
  ∀ start resultCount σ,
    view res
      <$> stats_pages human_genes human_genes_pheno res feed
            start resultCount σ
    = Engine.stats_pages (contents σ human_genes)
        (contents σ human_genes_pheno) feed start resultCount (view res σ).
Proof.
  destruct Hsep as (_ & Hhg & Hhgp).
  induction feed as [|resp feed IH]; intros start rc σ; simpl;
    destruct (start <? rc)%Z; try done.
  rewrite IH, agree_docs.
  pose proof (frame_docs human_genes human_genes_pheno res (docs resp) σ)
    as Hframe.
  by rewrite !(same_outside_contents _ _ _ _ Hframe).
Qed.

End Agreement.

Lemma set_new_fresh (σ : store) : (set_new σ).1 ∉ dom σ.
Proof. unfold set_new; simpl. apply is_fresh. Qed.

Lemma set_new_lookup (σ : store) (l : loc) :
  l ∈ dom σ → (set_new σ).2 !! l = σ !! l.
Proof.
  intros Hl. unfold set_new; simpl. rewrite lookup_insert_ne; [done|].
  intros <-. by apply (is_fresh (dom σ)).
Qed.

Lemma set_new_dom (σ : store) : dom (set_new σ).2 = {[ (set_new σ).1 ]} ∪ dom σ.
Proof. unfold set_new; simpl. by rewrite dom_insert_L. Qed.

(** What a call of [get_model_gene_stats] does to the store. *)
Lemma get_model_gene_stats_effect
    (feed : list response)
    (human_genes human_genes_pheno : loc)
    (model_human_set0 model_only0 multi_model_set0 : loc)
    (σ σ' : store) (res : results) :
  get_model_gene_stats feed human_genes human_genes_pheno
    model_human_set0 model_only0 multi_model_set0 σ = Some (res, σ') →
  model_only res = model_only0
  ∧ model_human_set res = model_human_set0
  ∧ multi_model_set res = multi_model_set0
  ∧ (model_set res ∉ dom σ)
  ∧ (unmatched_set res ∉ dom σ)
  ∧ (model_set res ∈ dom σ')
  ∧ (dom σ ⊆ dom σ')
  ∧ (∀ l, l ∈ dom σ →
          l ≠ model_only0 → l ≠ model_human_set0 → l ≠ multi_model_set0 →
          σ' !! l = σ !! l).
Proof.
  unfold get_model_gene_stats.
  pose proof (set_new_fresh σ) as Hf1.
  pose proof (set_new_lookup σ) as Hl1.
  pose proof (set_new_dom σ) as Hd1.
  destruct (set_new σ) as [l1 σ1]. cbn [fst snd] in Hf1, Hl1, Hd1.
  pose proof (set_new_fresh σ1) as Hf2.
  pose proof (set_new_lookup σ1) as Hl2.
  pose proof (set_new_dom σ1) as Hd2.
  destruct (set_new σ1) as [l2 σ2]. cbn [fst snd] in Hf2, Hl2, Hd2.
  match goal with
  | |- context [stats_pages ?hg ?hgp ?r ?f ?s ?rc ?st] =>
      destruct (stats_pages hg hgp r f s rc st) as [σ3|] eqn:E; [|done]
  end.
  intros [= <- <-].
  pose proof (live_pages _ _ _ _ _ _ _ _ E) as Hlive.
  apply frame_pages in E. simpl.
  assert (Hin1 : ∀ l, l ∈ dom σ → l ∈ dom σ1).
  { intros l Hl. rewrite Hd1. apply elem_of_union. by right. }
  assert (Hin2 : ∀ l, l ∈ dom σ1 → l ∈ dom σ2).
  { intros l Hl. rewrite Hd2. apply elem_of_union. by right. }
  assert (Hl2' : l2 ∉ dom σ) by (intros Hin; by apply Hf2, Hin1).
  split_and!; try done.
  - apply Hlive, Hin2. rewrite Hd1. apply elem_of_union. left.
    by apply elem_of_singleton.
  - intros l Hl. by apply Hlive, Hin2, Hin1.
  - intros l Hl Hmo Hmh Hmm.
    rewrite <- (Hl1 l Hl), <- (Hl2 l (Hin1 l Hl)). apply E.
    unfold written; simpl.
    rewrite !elem_of_union, !elem_of_singleton.
    intros [[[[->| ->]| ->]| ->]| ->]; done.
Qed.

(** C10: a call of the classification step writes to the three accumulator
    objects it is handed and to the two sets it creates (modelSet and the
    unmatched set), and to nothing else: every other live object holds
    after the call what it held before.  So humanGenes and AnyEvidenceSet,
    objects that are not among the accumulators, are equal before and
    after the call. *)
Theorem get_model_gene_stats_frame
    (feed : list response)
    (human_genes human_genes_pheno : loc)
    (model_human_set0 model_only0 multi_model_set0 : loc)
    (σ σ' : store) (res : results) :
  get_model_gene_stats feed human_genes human_genes_pheno
    model_human_set0 model_only0 multi_model_set0 σ = Some (res, σ') →
  model_only res = model_only0
  ∧ model_human_set res = model_human_set0
  ∧ multi_model_set res = multi_model_set0
  ∧ (model_set res ∉ dom σ)
  ∧ (unmatched_set res ∉ dom σ)
  ∧ (∀ l, l ∈ dom σ →
          l ≠ model_only0 → l ≠ model_human_set0 → l ≠ multi_model_set0 →
          σ' !! l = σ !! l)
  ∧ (human_genes ∈ dom σ →
     human_genes ∉ [model_only0; model_human_set0; multi_model_set0] →
     contents σ' human_genes = contents σ human_genes)
  ∧ (human_genes_pheno ∈ dom σ →
     human_genes_pheno ∉ [model_only0; model_human_set0; multi_model_set0] →
     contents σ' human_genes_pheno = contents σ human_genes_pheno).
Proof.
  intros Hcall.
  apply get_model_gene_stats_effect in Hcall
    as (Hmo & Hmh & Hmm & Hms & Hun & _ & _ & Hframe).
  assert (Hinput : ∀ l, l ∈ dom σ →
            l ∉ [model_only0; model_human_set0; multi_model_set0] →
            contents σ' l = contents σ l).
  { intros l Hl Hnot. unfold contents. rewrite Hframe; [done|done|..].
    all: intros ->; apply Hnot; repeat constructor. }
  split_and!; try done; by apply Hinput.
Qed.

Lemma get_model_gene_stats_frame_witness :
  contents call_outcome.2 1%positive = contents five_sets 1%positive
  ∧ contents call_outcome.2 2%positive = contents five_sets 2%positive.
Proof.
  assert (Hrun : (get_model_gene_stats one_page 1 2 3 4 5 five_sets)%positive
                 = Some (call_outcome.1, call_outcome.2))
    by (vm_compute; reflexivity).
  pose proof (get_model_gene_stats_frame one_page 1 2 3 4 5 five_sets
                call_outcome.2 call_outcome.1 Hrun)%positive
    as (_ & _ & _ & _ & _ & _ & Hhg & Hhgp).
  split.
  - apply Hhg; apply (bool_decide_unpack _); vm_compute; exact I.
  - apply Hhgp; apply (bool_decide_unpack _); vm_compute; exact I.
Defined.

(** *** Agreement of whole calls and of [main] *)

Lemma contents_set_new_old (σ : store) (l : loc) :
  l ∈ dom σ → contents (set_new σ).2 l = contents σ l.
Proof. intros Hl. unfold contents. by rewrite set_new_lookup. Qed.

Lemma contents_set_new_new (σ : store) :
  contents (set_new σ).2 (set_new σ).1 = ∅.
Proof. unfold set_new, contents; simpl. by rewrite lookup_insert_eq. Qed.

Lemma get_model_gene_stats_agrees (feed : list response)
    (human_genes human_genes_pheno : loc)
    (model_human_set0 model_only0 multi_model_set0 : loc) (σ : store) :
  handed_apart human_genes human_genes_pheno
    model_human_set0 model_only0 multi_model_set0 σ →
  (λ out, view out.1 out.2)
    <$> get_model_gene_stats feed human_genes human_genes_pheno
          model_human_set0 model_only0 multi_model_set0 σ
  = Engine.get_model_gene_stats (contents σ human_genes)
      (contents σ human_genes_pheno) feed
      (contents σ model_human_set0) (contents σ model_only0)
      (contents σ multi_model_set0).
Proof.
  intros (Hnd & Hhg & Hhgp & Hlive).
  assert (Hhg' : human_genes ∈ dom σ) by (apply Hlive; set_solver).
  assert (Hhgp' : human_genes_pheno ∈ dom σ) by (apply Hlive; set_solver).
  assert (Hmo : model_only0 ∈ dom σ) by (apply Hlive; set_solver).
  assert (Hmh : model_human_set0 ∈ dom σ) by (apply Hlive; set_solver).
  assert (Hmm : multi_model_set0 ∈ dom σ) by (apply Hlive; set_solver).
  clear Hlive.
  unfold get_model_gene_stats, Engine.get_model_gene_stats.
  pose proof (set_new_fresh σ) as Hf1.
  pose proof (contents_set_new_old σ) as Hold1.
  pose proof (contents_set_new_new σ) as Hnew1.
  pose proof (set_new_dom σ) as Hd1.
  destruct (set_new σ) as [l1 σ1]. cbn [fst snd] in Hf1, Hold1, Hnew1, Hd1.
  pose proof (set_new_fresh σ1) as Hf2.
  pose proof (contents_set_new_old σ1) as Hold2.
  pose proof (contents_set_new_new σ1) as Hnew2.
  destruct (set_new σ1) as [l2 σ2]. cbn [fst snd] in Hf2, Hold2, Hnew2.
  assert (Hin1 : ∀ l, l ∈ dom σ → l ∈ dom σ1).
  { intros l Hl. rewrite Hd1. apply elem_of_union. by right. }
  assert (Hl1 : l1 ∈ dom σ1).
  { rewrite Hd1. apply elem_of_union. left. by apply elem_of_singleton. }
  assert (Hne : ∀ l, l ∈ dom σ → l ≠ l1 ∧ l ≠ l2).
  { intros l Hl. split; intros ->; [done|]. by apply Hf2, Hin1. }
  assert (Hne12 : l1 ≠ l2) by (intros ->; done).
  set (res := Results l1 model_only0 model_human_set0 multi_model_set0 l2).
  assert (Hsep : separate human_genes human_genes_pheno res).
  { destruct (Hne _ Hhg'), (Hne _ Hhgp'), (Hne _ Hmo), (Hne _ Hmh),
      (Hne _ Hmm).
    apply NoDup_cons in Hnd as [Hn1 Hnd].
    apply NoDup_cons in Hnd as [Hn2 _].
    assert (human_genes ≠ model_only0 ∧ human_genes ≠ model_human_set0
            ∧ human_genes ≠ multi_model_set0) as (? & ? & ?)
      by (split_and!; intros ->; apply Hhg; repeat constructor).
    assert (human_genes_pheno ≠ model_only0
            ∧ human_genes_pheno ≠ model_human_set0
            ∧ human_genes_pheno ≠ multi_model_set0) as (? & ? & ?)
      by (split_and!; intros ->; apply Hhgp; repeat constructor).
    assert (model_only0 ≠ model_human_set0
            ∧ model_only0 ≠ multi_model_set0) as (? & ?)
      by (split_and!; intros ->; apply Hn1; repeat constructor).
    assert (model_human_set0 ≠ multi_model_set0)
      by (intros ->; apply Hn2; repeat constructor).
    unfold separate, written, res; simpl. split_and!.
    - repeat constructor; rewrite ?not_elem_of_cons;
        split_and?; try done; try congruence; try apply not_elem_of_nil.
    - rewrite !not_elem_of_union, !not_elem_of_singleton.
      split_and!; congruence.
    - rewrite !not_elem_of_union, !not_elem_of_singleton.
      split_and!; congruence. }
  pose proof (agree_pages human_genes human_genes_pheno res Hsep feed
                0%Z rows σ2) as Hpages.
  assert (Hview : view res σ2
                  = Engine.Results ∅ (contents σ model_only0)
                      (contents σ model_human_set0)
                      (contents σ multi_model_set0) ∅).
  { unfold view, res; simpl.
    rewrite Hnew2, (Hold2 l1 Hl1), Hnew1.
    by rewrite !Hold2, !Hold1 by auto. }
  rewrite Hview, !Hold2, !Hold1 in Hpages by auto.
  rewrite <- Hpages.
  by destruct (stats_pages human_genes human_genes_pheno res feed 0 rows σ2).
Qed.

Section MainAgreement.

Variables human_genes human_genes_pheno : loc.
Variable solr : string → list response.

Lemma main_loop_agrees (taxon_map : list (string * string)) :
  ∀ vars σ,
    main_apart human_genes human_genes_pheno vars σ →
    (λ out, main_view out.1 out.2)
      <$> main_loop human_genes human_genes_pheno solr taxon_map vars σ
    = Engine.main_loop (contents σ human_genes)
        (contents σ human_genes_pheno) solr taxon_map (main_view vars σ).
Proof.
  induction taxon_map as [|[taxon taxon_iri] rest IH];
    intros vars σ [Hhand Hall]; [done|].
  cbn [main_loop Engine.main_loop].
  pose proof (get_model_gene_stats_agrees
                (solr (map_iri_to_curie taxon_iri)) _ _ _ _ _ σ Hhand)
    as Hcall.
  change (Engine.m_model_human_set (main_view vars σ))
    with (contents σ (v_model_human_set vars)).
  change (Engine.m_model_only (main_view vars σ))
    with (contents σ (v_model_only vars)).
  change (Engine.m_multi_model_set (main_view vars σ))
    with (contents σ (v_multi_model_set vars)).
  change (Engine.m_all_models (main_view vars σ))
    with (contents σ <$> v_all_models vars).
  rewrite <- Hcall. clear Hcall.
  destruct (get_model_gene_stats _ _ _ _ _ _ σ) as [[res σ']|] eqn:E;
    [|done].
  cbn [fmap option_fmap option_map fst snd].
  apply get_model_gene_stats_effect in E
    as (Emo & Emh & Emm & Hms & _ & Hms' & Hdom & Hframe).
  destruct Hhand as (Hnd & Hhg & Hhgp & Hlive).
  assert (Hkeep : ∀ l, l ∈ dom σ →
            l ∉ [ v_model_only vars; v_model_human_set vars;
                  v_multi_model_set vars ] →
            contents σ' l = contents σ l).
  { intros l Hl Hnot. unfold contents. rewrite Hframe; [done|done|..].
    all: intros ->; apply Hnot; repeat constructor. }
  rewrite IH.
  - rewrite !Hkeep by (first [done | apply Hlive; repeat constructor]).
    f_equal. unfold main_view, view.
    cbn [v_model_only v_all_models v_model_human_set v_multi_model_set
         Engine.model_only Engine.model_set Engine.model_human_set
         Engine.multi_model_set Engine.m_all_models].
    rewrite Emm, fmap_insert. f_equal. f_equal.
    apply map_fmap_ext. intros taxon' l Hl.
    destruct (Hall taxon' l Hl) as (Hin & Hn1 & Hn2 & Hn3).
    apply Hkeep; [done|].
    rewrite !not_elem_of_cons. split_and!; try done. apply not_elem_of_nil.
  - rewrite Emo, Emh. split.
    + split_and!; try done. intros l Hl. by apply Hdom, Hlive.
    + cbn [v_all_models v_model_only v_model_human_set v_multi_model_set].
      intros taxon' l. rewrite lookup_insert. case_decide.
      * intros [= <-]. split; [done|].
        split_and!; intros Heq; apply Hms; rewrite Heq;
          apply Hlive; repeat constructor.
      * intros Hl. destruct (Hall taxon' l Hl) as (Hin & Hn).
        split; [by apply Hdom|done].
Qed.

End MainAgreement.

(** X14: the state-passing reading of [main] is faithful to the objects.
    Started at lines 57-60 on a store where the two input sets are live
    objects, the loop of [main] over the store of objects ends, read
    through the store, in the state that the state-passing loop reaches
    from the empty state; one fails exactly when the other does. *)
Lemma main_agrees (human_genes human_genes_pheno : loc)
    (solr : string → list response) (taxon_map : list (string * string))
    (σ0 : store) :
  human_genes ∈ dom σ0 →
  human_genes_pheno ∈ dom σ0 →
  (λ out, main_view out.1 out.2)
    <$> main_loop human_genes human_genes_pheno solr taxon_map
          (main_init σ0).1 (main_init σ0).2
  = Engine.main_loop (contents σ0 human_genes)
      (contents σ0 human_genes_pheno) solr taxon_map Engine.main_init.
Proof.
  intros Hhg Hhgp. unfold main_init.
  pose proof (set_new_fresh σ0) as Hf1.
  pose proof (contents_set_new_old σ0) as Hold1.
  pose proof (contents_set_new_new σ0) as Hnew1.
  pose proof (set_new_dom σ0) as Hd1.
  destruct (set_new σ0) as [l1 σ1]. cbn [fst snd] in Hf1, Hold1, Hnew1, Hd1.
  pose proof (set_new_fresh σ1) as Hf2.
  pose proof (contents_set_new_old σ1) as Hold2.
  pose proof (contents_set_new_new σ1) as Hnew2.
  pose proof (set_new_dom σ1) as Hd2.
  destruct (set_new σ1) as [l2 σ2]. cbn [fst snd] in Hf2, Hold2, Hnew2, Hd2.
  pose proof (set_new_fresh σ2) as Hf3.
  pose proof (contents_set_new_old σ2) as Hold3.
  pose proof (contents_set_new_new σ2) as Hnew3.
  pose proof (set_new_dom σ2) as Hd3.
  destruct (set_new σ2) as [l3 σ3]. cbn [fst snd] in Hf3, Hold3, Hnew3, Hd3.
  assert (Hin1 : ∀ l, l ∈ dom σ0 → l ∈ dom σ1).
  { intros l Hl. rewrite Hd1. apply elem_of_union. by right. }
  assert (Hin2 : ∀ l, l ∈ dom σ1 → l ∈ dom σ2).
  { intros l Hl. rewrite Hd2. apply elem_of_union. by right. }
  assert (Hin3 : ∀ l, l ∈ dom σ2 → l ∈ dom σ3).
  { intros l Hl. rewrite Hd3. apply elem_of_union. by right. }
  assert (Hl1 : l1 ∈ dom σ1).
  { rewrite Hd1. apply elem_of_union. left. by apply elem_of_singleton. }
  assert (Hl2 : l2 ∈ dom σ2).
  { rewrite Hd2. apply elem_of_union. left. by apply elem_of_singleton. }
  assert (Hl3 : l3 ∈ dom σ3).
  { rewrite Hd3. apply elem_of_union. left. by apply elem_of_singleton. }
  cbn [fst snd].
  rewrite main_loop_agrees.
  - rewrite !Hold3, !Hold2, !Hold1 by auto.
    f_equal. unfold main_view, Engine.main_init.
    cbn [v_model_only v_all_models v_model_human_set v_multi_model_set].
    rewrite fmap_empty, Hnew3, (Hold3 l2 Hl2), Hnew2,
      (Hold3 l1 (Hin2 _ Hl1)), (Hold2 l1 Hl1), Hnew1.
    done.
  - split.
    + unfold handed_apart.
      cbn [v_model_only v_all_models v_model_human_set v_multi_model_set].
      assert (l1 ≠ l2) by (intros ->; done).
      assert (l1 ≠ l3) by (intros ->; by apply Hf3, Hin2).
      assert (l2 ≠ l3) by (intros ->; done).
      assert (∀ l, l ∈ dom σ0 → l ∉ [l1; l2; l3]) as Hold.
      { intros l Hl. rewrite !not_elem_of_cons.
        split_and!; try apply not_elem_of_nil; intros ->.
        - done.
        - by apply Hf2, Hin1.
        - by apply Hf3, Hin2, Hin1. }
      split_and!; [|by apply Hold|by apply Hold|].
      * repeat constructor; rewrite ?not_elem_of_cons;
          split_and?; try done; try apply not_elem_of_nil.
      * intros l. rewrite !elem_of_cons.
        intros [->|[->|[->|[->|[->|[]%elem_of_nil]]]]]; auto.
    + intros taxon l. cbn [v_all_models]. by rewrite lookup_empty.
Qed.

End StoreFacts.


(** * Properties of the paged loops (source lines 116-140 and 234-253) *)

Module PagingFacts.
Import PagingNotions.

Lemma pages_left_done (start total : Z) :
  (start <? total)%Z = false → pages_left start total = 0%nat.
Proof.
  intros H%Z.ltb_ge. unfold pages_left, rows.
  assert ((total - start + 1000 - 1) / 1000 < 1)%Z; [|lia].
  apply Z.div_lt_upper_bound; lia.
Qed.

Lemma pages_left_more (start total : Z) :
  (start <? total)%Z = true →
  pages_left start total = S (pages_left (start + rows) total).
Proof.
  intros H%Z.ltb_lt. unfold pages_left, rows.
  replace (total - start + 1000 - 1)%Z
    with (total - (start + 1000) + 1000 - 1 + 1 * 1000)%Z by lia.
  rewrite Z.div_add by lia.
  assert (0 <= (total - (start + 1000) + 1000 - 1) / 1000)%Z; [|lia].
  apply Z.div_pos; lia.
Qed.

Lemma pages_needed_first (total : Z) :
  pages_needed total = S (pages_left rows total).
Proof.
  unfold pages_needed, pages_left, rows.
  replace (total + 1000 - 1)%Z with (total - 1 + 1 * 1000)%Z by lia.
  replace (total - 1000 + 1000 - 1)%Z with (total - 1)%Z by lia.
  rewrite Z.div_add by lia.
  destruct (Z.le_gt_cases total 1000) as [Hle|Hgt].
  - assert ((total - 1) / 1000 < 1)%Z by (apply Z.div_lt_upper_bound; lia).
    lia.
  - assert (1 <= (total - 1) / 1000)%Z by (apply Z.div_le_lower_bound; lia).
    lia.
Qed.

(** From any offset, under an index that keeps reporting [total]. *)
Lemma pages_read_steady (total : Z) (feed : list response) :
  ∀ start,
    (∀ resp, resp ∈ feed → numFound resp = total) →
    pages_read feed start total
    = if (length feed <? pages_left start total)%nat then None
      else Some (first_pages (pages_left start total) feed).
Proof.
  unfold first_pages.
  induction feed as [|resp feed IH]; intros start Hall; cbn [pages_read].
  - destruct (start <? total)%Z eqn:E.
    + rewrite (pages_left_more _ _ E). done.
    + rewrite (pages_left_done _ _ E). done.
  - destruct (start <? total)%Z eqn:E.
    + rewrite (pages_left_more _ _ E).
      rewrite (Hall resp) by left.
      rewrite IH by (intros r Hr; apply Hall; by right).
      cbn [length]. change (S (length feed) <? S ?n)%nat
        with (length feed <? n)%nat.
      by destruct (length feed <? pages_left (start + rows) total)%nat.
    + rewrite (pages_left_done _ _ E). done.
Qed.

(** X1: the number of pages a paged loop requests.  When every response
    of the index reports the same number [total] of matches, the loop reads
    exactly the first [pages_needed total] pages, that is one page when
    [total] is at most the page size (zero included) and the pages that
    cover [total] records otherwise; responses beyond are never read; and
    when the index answers fewer requests than that, the fetch fails. *)
Theorem pages_read_constant_total (total : Z) (feed : list response) :
  (∀ resp, resp ∈ feed → numFound resp = total) →
  pages_read feed 0%Z rows
  = if (length feed <? pages_needed total)%nat then None
    else Some (first_pages (pages_needed total) feed).
Proof.
  intros Hall. rewrite pages_needed_first. unfold first_pages.
  destruct feed as [|resp feed]; [done|].
  cbn [pages_read]. change (0 <? rows)%Z with true. cbn match.
  rewrite (Hall resp) by left.
  rewrite pages_read_steady by (intros r Hr; apply Hall; by right).
  unfold first_pages. cbn [length]. change (S (length feed) <? S ?n)%nat
    with (length feed <? n)%nat.
  change (0 + rows)%Z with rows.
  by destruct (length feed <? pages_left rows total)%nat.
Qed.

Lemma pages_read_constant_total_witness :
  pages_read three_pages 0%Z rows
  = if (length three_pages <? pages_needed 2500)%nat then None
    else Some (first_pages (pages_needed 2500) three_pages).
Proof.
  apply (pages_read_constant_total 2500 three_pages).
  intros resp Hin. unfold three_pages in Hin.
  repeat (apply elem_of_cons in Hin as [->|Hin]); try reflexivity.
  by apply elem_of_nil in Hin.
Defined.

Lemma pages_read_prefix (feed : list response) :
  ∀ start resultCount ds,
    pages_read feed start resultCount = Some ds →
    ∃ k, (k ≤ length feed)%nat ∧ ds = first_pages k feed
         ∧ ((start <? resultCount)%Z = true → (1 ≤ k)%nat).
Proof.
  unfold first_pages.
  induction feed as [|resp feed IH]; intros start rc ds; cbn [pages_read];
    destruct (start <? rc)%Z; try done.
  - intros [= <-]. exists 0%nat. split_and!; [done|done|done].
  - destruct (pages_read feed (start + rows) (numFound resp)) as [ds'|] eqn:E;
      [|done].
    intros [= <-]. destruct (IH _ _ _ E) as (k & Hk & -> & _).
    exists (S k). split_and!; [simpl; lia|done|lia].
  - intros [= <-]. exists 0%nat. split_and!; [simpl; lia|done|done].
Qed.

(** X2: whatever the index reports, a paged loop that completes has read
    the docs of the first [k] responses, in order, for some [k] of at least
    one and at most the number of responses: the first page is always
    requested, and no page is skipped or read twice. *)
Theorem pages_read_first_pages (feed : list response) (ds : list doc) :
  pages_read feed 0%Z rows = Some ds →
  ∃ k, (1 ≤ k ≤ length feed)%nat ∧ ds = first_pages k feed.
Proof.
  intros H. destruct (pages_read_prefix _ _ _ _ H) as (k & Hk & -> & H1).
  exists k. split; [|done]. split; [by apply H1|done].
Qed.

Lemma pages_read_first_pages_witness :
  ∃ k, (1 ≤ k ≤ length three_pages)%nat
       ∧ [ Doc "g1" None None None; Doc "g2" None None None;
           Doc "g3" None None None ] = first_pages k three_pages.
Proof.
  apply (pages_read_first_pages three_pages). reflexivity.
Defined.

End PagingFacts.


(** * Properties of the normalizer on well-formed identifiers, and of the
    evidence source adapters (source lines 145-213 and 258-265) *)

Module AdapterFacts.
Import Adapters AdapterNotions NormalizerNotions NormalizerFacts.

Lemma startswith_app (prefix rest : string) :
  startswith (prefix ++ rest) prefix = true.
Proof.
  induction prefix as [|c prefix IH]; [by destruct rest|].
  change (startswith (String c (prefix ++ rest)) (String c prefix) = true).
  cbn [startswith]. by rewrite Ascii.eqb_refl.
Qed.

Lemma drop_chars_app (prefix rest : string) :
  drop_chars (String.length prefix) (prefix ++ rest) = rest.
Proof.
  induction prefix as [|c prefix IH]; [reflexivity|].
  change (drop_chars (S (String.length prefix))
            (String c (prefix ++ rest)) = rest).
  cbn [drop_chars]. exact IH.
Qed.

Lemma has_char_drop (c : ascii) (s : string) :
  ∀ n, has_char c s = false → has_char c (drop_chars n s) = false.
Proof.
  induction s as [|x s IH]; intros [|n] H; try done.
  cbn [drop_chars]. apply IH.
  cbn [has_char] in H. by apply orb_false_iff in H as [_ H].
Qed.

(** A pattern that begins with a literal character matches nowhere in a
    string without that character. *)
Lemma occurs_without_first (c : ascii) (pat : list atom) (s : string) :
  has_char c s = false → occurs (Lit c :: pat) s = false.
Proof.
  induction s as [|x s IH]; intros H; [done|].
  cbn [has_char] in H. apply orb_false_iff in H as [Hx Hs].
  cbn [occurs match_here atom_matches]. rewrite Hx. by apply IH.
Qed.

Lemma drop_chars_add (n m : nat) :
  ∀ s, drop_chars (n + m) s = drop_chars m (drop_chars n s).
Proof.
  induction n as [|n IH]; intros s; [done|].
  destruct s as [|c s]; [by destruct m|]. cbn [drop_chars Nat.add].
  apply IH.
Qed.

(** X3: on an identifier made of a key of [CURIE_MAP] and a local part
    without the letter h (a numeric gene or taxon id, for one), the
    normalizer returns the compact prefix, a colon and the local part as
    it is. *)
Theorem map_iri_to_curie_local_part (rest : string) :
  has_char "h" rest = false →
  map_iri_to_curie (gene_key ++ rest) = "NCBIGene:" ++ rest
  ∧ map_iri_to_curie (taxon_key ++ rest) = "NCBITaxon:" ++ rest.
Proof.
  intros Hrest. unfold map_iri_to_curie, gene_key, taxon_key. split.
  - rewrite map_iri_to_curie_in_verbatim.
    + unfold CURIE_MAP. cbn [normalize_spec].
      rewrite (startswith_app "http://www.ncbi.nlm.nih.gov/gene/" rest).
      by rewrite (drop_chars_app "http://www.ncbi.nlm.nih.gov/gene/" rest).
    + intros prefix name Hin. unfold CURIE_MAP in Hin.
      repeat (apply elem_of_cons in Hin as [[= -> ->]|Hin]);
        [| |by apply elem_of_nil in Hin].
      * split; [done|]. apply occurs_without_first.
        by rewrite (drop_chars_app "http://www.ncbi.nlm.nih.gov/gene/").
      * split; [done|]. apply occurs_without_first.
        change (String.length "http://purl.obolibrary.org/obo/NCBITaxon_")
          with (String.length "http://www.ncbi.nlm.nih.gov/gene/" + 8)%nat.
        rewrite drop_chars_add, drop_chars_app. by apply has_char_drop.
  - rewrite map_iri_to_curie_in_verbatim.
    + unfold CURIE_MAP. cbn [normalize_spec].
      replace (startswith
                 ("http://purl.obolibrary.org/obo/NCBITaxon_" ++ rest)
                 "http://www.ncbi.nlm.nih.gov/gene/")
        with false by reflexivity.
      rewrite (startswith_app
                 "http://purl.obolibrary.org/obo/NCBITaxon_" rest).
      by rewrite (drop_chars_app
                    "http://purl.obolibrary.org/obo/NCBITaxon_" rest).
    + intros prefix name Hin. unfold CURIE_MAP in Hin.
      repeat (apply elem_of_cons in Hin as [[= -> ->]|Hin]);
        [| |by apply elem_of_nil in Hin].
      * split; [done|]. apply occurs_without_first.
        change (has_char "h" rest = false). done.
      * split; [done|]. apply occurs_without_first.
        by rewrite
          (drop_chars_app "http://purl.obolibrary.org/obo/NCBITaxon_").
Qed.

Lemma map_iri_to_curie_local_part_witness :
  map_iri_to_curie (gene_key ++ "7157") = "NCBIGene:" ++ "7157"
  ∧ map_iri_to_curie (taxon_key ++ "10090") = "NCBITaxon:" ++ "10090".
Proof.
  split.
  - apply (map_iri_to_curie_local_part "7157"). reflexivity.
  - apply (map_iri_to_curie_local_part "10090"). reflexivity.
Defined.

Lemma size_list_to_set_bound (l : list string) :
  (size (list_to_set l : gset string) ≤ length l)%nat.
Proof.
  induction l as [|x l IH]; [done|]. cbn [list_to_set length].
  destruct (decide (x ∈ (list_to_set l : gset string))) as [Hin|Hout].
  - replace ({[ x ]} ∪ list_to_set l : gset string)
      with (list_to_set l : gset string) by set_solver.
    lia.
  - rewrite size_union by set_solver. rewrite size_singleton. lia.
Qed.

(** X4: [get_gene_phenotype_list] returns the facet values that do not
    start with "FlyBase", each once whatever its count and however often the
    index lists it: a gene is in the result exactly when some facet entry
    carries it and it does not start with "FlyBase"; so no gene of the
    result starts with "FlyBase", and the result has at most as many genes
    as the facet has entries. *)
Theorem get_gene_phenotype_list_spec (facet : list (string * Z)) :
  (∀ g, g ∈ get_gene_phenotype_list facet
        ↔ (∃ n, (g, n) ∈ facet) ∧ startswith g "FlyBase" = false)
  ∧ (∀ g, g ∈ get_gene_phenotype_list facet →
          startswith g "FlyBase" = false)
  ∧ (size (get_gene_phenotype_list facet) ≤ length facet)%nat.
Proof.
  assert (Hmem : ∀ g, g ∈ get_gene_phenotype_list facet
                 ↔ (∃ n, (g, n) ∈ facet) ∧ startswith g "FlyBase" = false).
  { intros g. unfold get_gene_phenotype_list.
    rewrite elem_of_list_to_set, list_elem_of_fmap. split.
    - intros ([g' n] & -> & [Hf Hin]%list_elem_of_filter). simpl in *.
      split; [by exists n|done].
    - intros [[n Hin] Hf]. exists (g, n). split; [done|].
      by apply list_elem_of_filter. }
  split_and!; [done| |].
  - intros g Hg. by apply Hmem in Hg as [_ Hg].
  - unfold get_gene_phenotype_list.
    etrans; [apply size_list_to_set_bound|].
    rewrite length_fmap. apply length_filter.
Qed.

(** X5: [get_human_genes] drops the IRIs that start with
    "http://flybase.org" and normalizes the others: an identifier is in the
    result exactly when it is the normal form of a returned IRI that does
    not start with "http://flybase.org"; and no identifier of the result
    starts with "http://flybase.org" or with a key of [CURIE_MAP]. *)
Theorem get_human_genes_spec (results : list string) :
  (∀ c, c ∈ get_human_genes results
        ↔ ∃ iri, iri ∈ results
                 ∧ startswith iri "http://flybase.org" = false
                 ∧ c = map_iri_to_curie iri)
  ∧ (∀ c, c ∈ get_human_genes results →
          startswith c "http://flybase.org" = false
          ∧ ∀ prefix name, (prefix, name) ∈ CURIE_MAP →
                           startswith c prefix = false).
Proof.
  assert (Hmem : ∀ c, c ∈ get_human_genes results
                 ↔ ∃ iri, iri ∈ results
                          ∧ startswith iri "http://flybase.org" = false
                          ∧ c = map_iri_to_curie iri).
  { intros c. unfold get_human_genes.
    rewrite elem_of_list_to_set, list_elem_of_fmap. split.
    - intros (iri & -> & [Hf Hin]%list_elem_of_filter). by exists iri.
    - intros (iri & Hin & Hf & ->). exists iri. split; [done|].
      by apply list_elem_of_filter. }
  split; [done|].
  intros c (iri & _ & Hf & ->)%Hmem. split.
  - unfold map_iri_to_curie, CURIE_MAP. cbn [map_iri_to_curie_in].
    destruct (startswith iri "http://www.ncbi.nlm.nih.gov/gene/") eqn:E1;
      [rewrite re_sub_head by done; reflexivity|].
    destruct (startswith iri "http://purl.obolibrary.org/obo/NCBITaxon_")
      eqn:E2; [rewrite re_sub_head by done; reflexivity|done].
  - apply map_iri_to_curie_no_key.
Qed.

End AdapterFacts.


(** * More of the classification engine: what the sets hold at the end of
    a run (source lines 57-142) *)

Module RunFacts.
Import Engine EngineNotions RunNotions EngineFacts.

Lemma occurrences_cons (g x : string) (l : list string) :
  occurrences g (x :: l)
  = if decide (x = g) then S (occurrences g l) else occurrences g l.
Proof. unfold occurrences. rewrite filter_cons. by case_decide. Qed.

Lemma occurrences_app (g : string) (l1 l2 : list string) :
  occurrences g (l1 ++ l2)%list = (occurrences g l1 + occurrences g l2)%nat.
Proof. unfold occurrences. by rewrite filter_app, length_app. Qed.

Lemma occurrences_pos (g : string) (l : list string) :
  g ∈ l ↔ (1 ≤ occurrences g l)%nat.
Proof.
  induction l as [|x l IH].
  - split; [by intros ?%elem_of_nil|]. unfold occurrences. simpl. lia.
  - rewrite occurrences_cons, elem_of_cons, IH.
    case_decide; [|naive_solver]. split; [lia|]. intros _. by left.
Qed.

Section Run.

Variables human_genes human_genes_pheno : gset string.

Abbreviation classify_ortholog :=
  (classify_ortholog human_genes human_genes_pheno).
Abbreviation classify_doc := (classify_doc human_genes human_genes_pheno).
Abbreviation get_model_gene_stats :=
  (get_model_gene_stats human_genes human_genes_pheno).

(** One step, member by member. *)
Lemma ortholog_members (r : results) (b : bool) (x g : string) :
  let r' := (classify_ortholog (r, b) x).1 in
  (g ∈ model_only r'
   ↔ g ∈ model_only r
     ∨ (g = x ∧ g ∈ human_genes ∧ (g ∉ human_genes_pheno)))
  ∧ (g ∈ model_human_set r'
     ↔ g ∈ model_human_set r ∨ (g = x ∧ g ∈ human_genes_pheno))
  ∧ (g ∈ multi_model_set r'
     ↔ g ∈ multi_model_set r
       ∨ (g = x ∧ g ∈ human_genes ∧ (g ∉ human_genes_pheno)
          ∧ g ∈ model_only r)).
Proof.
  unfold Engine.classify_ortholog.
  repeat case_decide; simpl in *;
    rewrite ?elem_of_union, ?elem_of_singleton; naive_solver.
Qed.

(** A list of members: each accumulator in terms of what it held before
    and of the occurrences in the list. *)
Lemma closure_members (l : list string) :
  ∀ r b g,
    let r' := (foldl classify_ortholog (r, b) l).1 in
    (g ∈ model_only r'
     ↔ g ∈ model_only r
       ∨ (g ∈ human_genes ∧ (g ∉ human_genes_pheno) ∧ g ∈ l))
    ∧ (g ∈ model_human_set r'
       ↔ g ∈ model_human_set r ∨ (g ∈ human_genes_pheno ∧ g ∈ l))
    ∧ (g ∈ multi_model_set r'
       ↔ g ∈ multi_model_set r
         ∨ (g ∈ human_genes ∧ (g ∉ human_genes_pheno)
            ∧ ((g ∈ model_only r ∧ g ∈ l)
               ∨ (2 ≤ occurrences g l)%nat))).
Proof.
  induction l as [|x l IH]; intros r b g; cbn [foldl].
  - cbn [fst]. unfold occurrences. simpl.
    split_and!; (split; [by left|]); intros [?|H]; try done.
    + destruct H as (_ & _ & []%elem_of_nil).
    + destruct H as (_ & []%elem_of_nil).
    + destruct H as (_ & _ & [[_ []%elem_of_nil]|?]). lia.
  - pose proof (ortholog_members r b x g) as (S1 & S2 & S3).
    destruct (classify_ortholog (r, b) x) as [r1 b1]. cbn [fst] in S1, S2, S3.
    destruct (IH r1 b1 g) as (I1 & I2 & I3).
    cbv zeta. rewrite I1, I2, I3, S1, S2, S3. clear I1 I2 I3 S1 S2 S3 IH.
    rewrite occurrences_cons, !elem_of_cons, (occurrences_pos g l).
    case_decide as Hx; [subst x|].
    + split_and!; [naive_solver|naive_solver|]. split.
      * intros [[?|?]|(? & ? & [[[?|?] ?]|?])]; try tauto.
        -- right. split_and!; try tauto. right. lia.
        -- right. split_and!; try tauto. right. lia.
      * intros [?|(? & ? & [[? ?]|?])]; try tauto.
        destruct (decide (g ∈ model_only r)); [tauto|].
        right. split_and!; try done. left. split; [tauto|lia].
    + split_and!; naive_solver.
Qed.

Lemma accumulators_ortholog (r1 r2 : results) (b1 b2 : bool) (g : string) :
  accumulators r1 = accumulators r2 →
  accumulators (classify_ortholog (r1, b1) g).1
  = accumulators (classify_ortholog (r2, b2) g).1.
Proof.
  unfold accumulators, Engine.classify_ortholog. intros [= H1 H2 H3].
  repeat case_decide; simpl in *; congruence.
Qed.

Lemma accumulators_closure (l : list string) :
  ∀ r1 r2 b1 b2,
    accumulators r1 = accumulators r2 →
    accumulators (foldl classify_ortholog (r1, b1) l).1
    = accumulators (foldl classify_ortholog (r2, b2) l).1.
Proof.
  induction l as [|g l IH]; intros r1 r2 b1 b2 H; cbn [foldl]; [done|].
  pose proof (accumulators_ortholog r1 r2 b1 b2 g H) as Hg.
  destruct (classify_ortholog (r1, b1) g) as [r1' b1'].
  destruct (classify_ortholog (r2, b2) g) as [r2' b2'].
  by apply IH.
Qed.

Lemma accumulators_doc (r1 r2 : results) (b : bool) (d : doc) :
  accumulators r1 = accumulators r2 →
  accumulators (classify_doc r1 d)
  = accumulators (foldl classify_ortholog (r2, b) (closure_of d)).1.
Proof.
  intros H. unfold Engine.classify_doc, closure_of.
  destruct (subject_ortholog_closure d) as [l|]; simpl; [|done].
  pose proof (accumulators_closure l r1 r2 false b H) as Hl.
  by destruct (foldl classify_ortholog (r1, false) l) as [r1' []].
Qed.

Lemma accumulators_docs (ds : list doc) :
  ∀ r1 r2 b,
    accumulators r1 = accumulators r2 →
    accumulators (foldl classify_doc r1 ds)
    = accumulators (foldl classify_ortholog (r2, b) (closures ds)).1.
Proof.
  unfold closures.
  induction ds as [|d ds IH]; intros r1 r2 b H; cbn [foldl]; [done|].
  rewrite bind_cons, foldl_app.
  pose proof (accumulators_doc r1 r2 b d H) as Hd.
  destruct (foldl classify_ortholog (r2, b) (closure_of d)) as [r2' b'].
  by apply IH.
Qed.

(** A call, seen from its accumulators: the members of the records read,
    classified one after the other. *)
Lemma call_accumulators (feed : list response) (mh mo mm : gset string)
    (ms un : gset string) (b : bool) :
  get_model_gene_stats feed mh mo mm
  = None ∧ pages_read feed 0%Z rows = None
  ∨ ∃ r ds,
      get_model_gene_stats feed mh mo mm = Some r
      ∧ pages_read feed 0%Z rows = Some ds
      ∧ accumulators r
        = accumulators
            (foldl classify_ortholog (Results ms mo mh mm un, b)
                   (closures ds)).1.
Proof.
  unfold Engine.get_model_gene_stats. rewrite stats_pages_read.
  destruct (pages_read feed 0 rows) as [ds|]; simpl; [|by left].
  right. eexists _, ds. split_and!; [done|done|].
  by apply accumulators_docs.
Qed.

Variable solr : string → list response.

Abbreviation main_loop := (main_loop human_genes human_genes_pheno solr).

(** A run, seen from its accumulators. *)
Lemma run_accumulators (taxon_map : list (string * string)) :
  ∀ st ms un b,
    main_loop taxon_map st = None ∧ run_closures solr taxon_map = None
    ∨ ∃ st' l,
        main_loop taxon_map st = Some st'
        ∧ run_closures solr taxon_map = Some l
        ∧ (m_model_only st', m_model_human_set st', m_multi_model_set st')
          = accumulators
              (foldl classify_ortholog
                 (Results ms (m_model_only st) (m_model_human_set st)
                          (m_multi_model_set st) un, b) l).1.
Proof.
  induction taxon_map as [|[taxon taxon_iri] rest IH]; intros st ms un b;
    cbn [Engine.main_loop run_closures].
  - right. by eexists st, [].
  - destruct (call_accumulators (solr (map_iri_to_curie taxon_iri))
                (m_model_human_set st) (m_model_only st)
                (m_multi_model_set st) ms un b)
      as [[-> ->]|(r & ds & -> & -> & Hacc)]; [by left|].
    destruct (foldl classify_ortholog _ (closures ds)) as [r1 b1] eqn:E1.
    cbn [fst] in Hacc.
    destruct (IH (MainState (model_only r)
                    (<[ taxon := model_set r ]> (m_all_models st))
                    (model_human_set r) (multi_model_set r))
                 (model_set r1) (unmatched_set r1) b1)
      as [[-> ->]|(st' & l & -> & -> & Hrest)]; [by left|].
    right. exists st', (closures ds ++ l)%list. split_and!; [done|done|].
    rewrite Hrest, foldl_app, E1.
    cbn [m_model_only m_model_human_set m_multi_model_set].
    apply accumulators_closure.
    unfold accumulators in *. destruct r1. simpl in *. congruence.
Qed.

End Run.

(** X6: what the three accumulators hold at the end of a run of [main],
    in terms of the closure members [l] the run went through (all
    organisms, all records, with repetitions).  modelHuman holds the members
    that are in AnyEvidenceSet; modelOnly holds the members that are in
    humanGenes and not in AnyEvidenceSet; multiModel holds those of the
    latter that occur at least twice in [l], be it under two organisms, in
    two records of one organism, or twice in one closure. *)
Theorem run_sets_by_occurrences
    (human_genes human_genes_pheno : gset string)
    (solr : string → list response) (taxon_map : list (string * string))
    (st : main_state) :
  main_loop human_genes human_genes_pheno solr taxon_map main_init
  = Some st →
  ∃ l, run_closures solr taxon_map = Some l
       ∧ ∀ g,
           (g ∈ m_model_human_set st ↔ g ∈ human_genes_pheno ∧ g ∈ l)
           ∧ (g ∈ m_model_only st
              ↔ g ∈ human_genes ∧ (g ∉ human_genes_pheno) ∧ g ∈ l)
           ∧ (g ∈ m_multi_model_set st
              ↔ g ∈ human_genes ∧ (g ∉ human_genes_pheno)
                ∧ (2 ≤ occurrences g l)%nat).
Proof.
  intros Hrun.
  destruct (run_accumulators human_genes human_genes_pheno solr taxon_map
              main_init ∅ ∅ false)
    as [[Hnone _]|(st' & l & Hsome & Hl & Hacc)]; [congruence|].
  rewrite Hrun in Hsome. injection Hsome as <-.
  exists l. split; [done|]. intros g.
  pose proof (closure_members human_genes human_genes_pheno l
                (Results ∅ ∅ ∅ ∅ ∅) false g) as (H1 & H2 & H3).
  unfold main_init in Hacc. cbn [m_model_only m_model_human_set
                                  m_multi_model_set] in Hacc.
  cbv zeta in H1, H2, H3.
  destruct (foldl _ (Results ∅ ∅ ∅ ∅ ∅, false) l) as [r b].
  unfold accumulators in Hacc. cbn [fst] in *.
  injection Hacc as -> -> ->. simpl in H1, H2, H3.
  rewrite H1, H2, H3. clear. set_solver.
Qed.

Lemma run_sets_by_occurrences_witness :
  ∃ l, run_closures OneOrganism.solr OneOrganism.taxon_map = Some l
       ∧ ∀ g,
           (g ∈ m_model_human_set one_organism_final
            ↔ g ∈ OneOrganism.any_evidence ∧ g ∈ l)
           ∧ (g ∈ m_model_only one_organism_final
              ↔ g ∈ OneOrganism.human_genes
                ∧ (g ∉ OneOrganism.any_evidence) ∧ g ∈ l)
           ∧ (g ∈ m_multi_model_set one_organism_final
              ↔ g ∈ OneOrganism.human_genes
                ∧ (g ∉ OneOrganism.any_evidence)
                ∧ (2 ≤ occurrences g l)%nat).
Proof.
  apply (run_sets_by_occurrences OneOrganism.human_genes
           OneOrganism.any_evidence OneOrganism.solr OneOrganism.taxon_map
           one_organism_final).
  vm_compute. reflexivity.
Defined.

Lemma main_loop_completes
    (human_genes human_genes_pheno : gset string)
    (solr : string → list response) (taxon_map : list (string * string))
    (st : main_state) :
  is_Some (main_loop human_genes human_genes_pheno solr taxon_map st)
  ↔ ∀ taxon taxon_iri,
      (taxon, taxon_iri) ∈ taxon_map →
      is_Some (pages_read (solr (map_iri_to_curie taxon_iri)) 0%Z rows).
Proof.
  transitivity (is_Some (run_closures solr taxon_map)).
  - destruct (run_accumulators human_genes human_genes_pheno solr taxon_map
                st ∅ ∅ false)
      as [[-> ->]|(st' & l & -> & -> & _)]; [|done].
    split; by intros [? ?].
  - induction taxon_map as [|[taxon taxon_iri] rest IH];
      cbn [run_closures].
    + split; [|done]. by intros _ ? ? ?%elem_of_nil.
    + destruct (pages_read (solr (map_iri_to_curie taxon_iri)) 0 rows)
        as [ds|] eqn:E.
      * destruct (run_closures solr rest) as [l|].
        -- split; [|done]. intros _ t i [[= -> ->]|Hin]%elem_of_cons.
           ++ by rewrite E.
           ++ by apply (proj1 IH (ltac:(done)) t i).
        -- split; [by intros [? ?]|]. intros H.
           assert (is_Some (None : option (list string))) as [? ?]; [|done].
           apply (proj2 IH). intros t i Hin. apply (H t i). by right.
      * split; [by intros [? ?]|]. intros H.
        specialize (H taxon taxon_iri). rewrite E in H.
        destruct H as [? ?]; [by left|done].
Qed.

(** X7: a run of [main] reaches its end exactly when every paged fetch
    of its organisms does; what was classified before has no part in it. *)
Theorem run_completes_iff
    (human_genes human_genes_pheno : gset string)
    (solr : string → list response) (taxon_map : list (string * string)) :
  is_Some (main_loop human_genes human_genes_pheno solr taxon_map main_init)
  ↔ ∀ taxon taxon_iri,
      (taxon, taxon_iri) ∈ taxon_map →
      is_Some (pages_read (solr (map_iri_to_curie taxon_iri)) 0%Z rows).
Proof. apply main_loop_completes. Qed.

(** *** The unmatched records *)

Section Unmatched.

Variables human_genes human_genes_pheno : gset string.

Abbreviation classify_ortholog :=
  (classify_ortholog human_genes human_genes_pheno).
Abbreviation classify_doc := (classify_doc human_genes human_genes_pheno).
Abbreviation matched := (matched human_genes human_genes_pheno).

Lemma closure_found (l : list string) :
  ∀ r b,
    (foldl classify_ortholog (r, b) l).2 = true
    ↔ b = true
      ∨ ∃ g, g ∈ l ∧ (g ∈ human_genes_pheno ∨ g ∈ human_genes).
Proof.
  induction l as [|x l IH]; intros r b; cbn [foldl].
  - split; [by left|]. intros [?|(g & []%elem_of_nil & _)]. done.
  - destruct (classify_ortholog (r, b) x) as [r1 b1] eqn:E.
    rewrite IH. unfold Engine.classify_ortholog in E.
    repeat case_decide; simplify_eq; split.
    all: try (intros _; right; exists x; split; [left|tauto]).
    all: try (intros _; by left).
    + intros [?|(g & Hg & Hm)]; [by left|].
      right. exists g. split; [by right|done].
    + intros [?|(g & [->|Hg]%elem_of_cons & Hm)]; [by left|tauto|].
      right. by exists g.
Qed.

Lemma closure_unmatched (l : list string) :
  ∀ r b,
    unmatched_set (foldl classify_ortholog (r, b) l).1 = unmatched_set r.
Proof.
  induction l as [|x l IH]; intros r b; cbn [foldl]; [done|].
  destruct (classify_ortholog (r, b) x) as [r1 b1] eqn:E.
  rewrite IH. unfold Engine.classify_ortholog in E.
  repeat case_decide; by simplify_eq.
Qed.

Lemma doc_unmatched (r : results) (d : doc) (s : string) :
  s ∈ unmatched_set (classify_doc r d)
  ↔ s ∈ unmatched_set r ∨ (subject d = s ∧ ¬ matched d).
Proof.
  unfold Engine.classify_doc, RunNotions.matched, closure_of.
  destruct (subject_ortholog_closure d) as [l|]; simpl.
  - pose proof (closure_found l r false) as Hf.
    pose proof (closure_unmatched l r false) as Hu.
    destruct (foldl classify_ortholog (r, false) l) as [r1 [|]];
      simpl in *; rewrite ?elem_of_union, ?elem_of_singleton, Hu.
    + destruct Hf as [[?|Hm] _]; [done|done|]. naive_solver.
    + split; [|naive_solver]. intros [->|?]; [|by left]. right.
      split; [done|]. intros Hm.
      assert (false = true); [|done]. apply Hf. by right.
  - rewrite elem_of_union, elem_of_singleton. split; [|naive_solver].
    intros [->|?]; [|by left]. right. split; [done|].
    by intros (g & []%elem_of_nil & _).
Qed.

Lemma docs_unmatched (ds : list doc) :
  ∀ r s,
    s ∈ unmatched_set (foldl classify_doc r ds)
    ↔ s ∈ unmatched_set r
      ∨ ∃ d, d ∈ ds ∧ subject d = s ∧ ¬ matched d.
Proof.
  induction ds as [|d ds IH]; intros r s; cbn [foldl].
  - split; [by left|]. by intros [?|(d & []%elem_of_nil & _)].
  - rewrite IH, doc_unmatched. split.
    + intros [[?|[? ?]]|(d' & ? & ? & ?)]; [by left| |].
      * right. exists d. split; [left|done].
      * right. exists d'. split; [by right|done].
    + intros [?|(d' & [->|?]%elem_of_cons & ? & ?)].
      * left. by left.
      * left. by right.
      * right. by exists d'.
Qed.

End Unmatched.

(** X8: the diagnostic set of a call.  A subject is in the unmatched set
    that [get_model_gene_stats] returns exactly when the call read a record
    of that subject none of whose closure members is in humanGenes or in
    AnyEvidenceSet (a record without a closure among them). *)
Theorem unmatched_set_spec
    (human_genes human_genes_pheno : gset string) (feed : list response)
    (mh mo mm : gset string) (r : results) :
  get_model_gene_stats human_genes human_genes_pheno feed mh mo mm
  = Some r →
  ∃ ds, pages_read feed 0%Z rows = Some ds
        ∧ ∀ s, s ∈ unmatched_set r
               ↔ ∃ d, d ∈ ds ∧ subject d = s
                      ∧ ¬ matched human_genes human_genes_pheno d.
Proof.
  unfold get_model_gene_stats. rewrite stats_pages_read.
  destruct (pages_read feed 0 rows) as [ds|]; simpl; [|done].
  intros [= <-]. exists ds. split; [done|]. intros s.
  rewrite docs_unmatched. simpl. set_solver.
Qed.

Lemma unmatched_set_spec_witness :
  ∃ ds, pages_read two_records 0%Z rows = Some ds
        ∧ ∀ s, s ∈ unmatched_set two_records_result
               ↔ ∃ d, d ∈ ds ∧ subject d = s
                      ∧ ¬ matched {[ "H3" ]} ∅ d.
Proof.
  apply (unmatched_set_spec {[ "H3" ]} ∅ two_records ∅ ∅ ∅).
  vm_compute. reflexivity.
Defined.

(** *** The set of each organism and its exclusive count *)

Lemma main_loop_all_models
    (human_genes human_genes_pheno : gset string)
    (solr : string → list response) (taxon_map : list (string * string)) :
  ∀ st0 st,
    NoDup taxon_map.*1 →
    main_loop human_genes human_genes_pheno solr taxon_map st0 = Some st →
    (∀ taxon, taxon ∉ taxon_map.*1 →
              m_all_models st !! taxon = m_all_models st0 !! taxon)
    ∧ (∀ taxon taxon_iri,
         (taxon, taxon_iri) ∈ taxon_map →
         ∃ ds,
           pages_read (solr (map_iri_to_curie taxon_iri)) 0%Z rows = Some ds
           ∧ m_all_models st !! taxon
             = Some (members ds ∩ (human_genes_pheno ∪ human_genes))).
Proof.
  induction taxon_map as [|[taxon taxon_iri] rest IH]; intros st0 st Hnd;
    cbn [main_loop].
  - intros [= <-]. split; [done|]. by intros ? ? ?%elem_of_nil.
  - cbn [fmap list_fmap fst] in Hnd. apply NoDup_cons in Hnd as [Hnew Hnd].
    destruct (pages_read (solr (map_iri_to_curie taxon_iri)) 0 rows)
      as [ds|] eqn:E.
    + destruct (get_model_gene_stats_classified human_genes
                  human_genes_pheno _ ds (m_model_human_set st0)
                  (m_model_only st0) (m_multi_model_set st0) E)
        as (r & -> & (Hms & _)).
      intros Hrest. destruct (IH _ _ Hnd Hrest) as [Hkeep Hall].
      cbn [m_all_models model_set] in Hkeep, Hms. split.
      * intros t Ht. cbn [fmap list_fmap fst] in Ht.
        apply not_elem_of_cons in Ht as [Hne Ht].
        rewrite (Hkeep t Ht). by rewrite lookup_insert_ne.
      * intros t i [[= -> ->]|Hin]%elem_of_cons; [|by apply Hall].
        exists ds. split; [done|].
        rewrite (Hkeep taxon Hnew), lookup_insert_eq, Hms.
        f_equal. set_solver.
    + unfold get_model_gene_stats. rewrite stats_pages_read, E. done.
Qed.

(** X9: the set reported for an organism.  When the organisms have
    distinct names, the set that a completed run keeps for an organism is
    made of the closure members of that organism's records that are in
    humanGenes or in AnyEvidenceSet; it does not depend on the other
    organisms or on the order in which they are processed. *)
Theorem organism_model_set
    (human_genes human_genes_pheno : gset string)
    (solr : string → list response) (taxon_map : list (string * string))
    (st : main_state) (taxon taxon_iri : string) :
  NoDup taxon_map.*1 →
  main_loop human_genes human_genes_pheno solr taxon_map main_init
  = Some st →
  (taxon, taxon_iri) ∈ taxon_map →
  ∃ ds,
    pages_read (solr (map_iri_to_curie taxon_iri)) 0%Z rows = Some ds
    ∧ m_all_models st !! taxon
      = Some (members ds ∩ (human_genes_pheno ∪ human_genes)).
Proof.
  intros Hnd Hrun Hin.
  by apply (main_loop_all_models _ _ _ _ _ _ Hnd Hrun).
Qed.

Lemma organism_model_set_witness :
  ∃ ds,
    pages_read
      (Scenario.solr
         (map_iri_to_curie "http://purl.obolibrary.org/obo/NCBITaxon_2"))
      0%Z rows = Some ds
    ∧ m_all_models scenario_final !! "B"
      = Some (members ds
                ∩ (Scenario.any_evidence ∪ Scenario.human_genes)).
Proof.
  apply (organism_model_set Scenario.human_genes Scenario.any_evidence
           Scenario.solr Scenario.taxon_map scenario_final "B").
  - apply (bool_decide_unpack _). vm_compute. exact I.
  - vm_compute. reflexivity.
  - apply (bool_decide_unpack _). vm_compute. exact I.
Defined.

(** X10: the number printed as "<taxon> only".  At the end of a run, the
    exclusive count of an organism is the number of genes of the organism's
    set that are neither in multiModel nor in modelHuman. *)
Theorem one_species_count_spec
    (human_genes human_genes_pheno : gset string)
    (solr : string → list response) (taxon_map : list (string * string))
    (st : main_state) (taxon : string) (n : Z) :
  main_loop human_genes human_genes_pheno solr taxon_map main_init
  = Some st →
  one_species_count st taxon = Some n →
  ∃ ms, m_all_models st !! taxon = Some ms
        ∧ n = Z.of_nat
                (size (ms ∖ (m_multi_model_set st ∪ m_model_human_set st))).
Proof.
  intros Hrun. apply main_loop_sound in Hrun as (Hmh & Hmm & _).
  unfold one_species_count.
  destruct (m_all_models st !! taxon) as [ms|]; [|done].
  intros [= <-]. exists ms. split; [done|].
  set (mm := m_multi_model_set st) in *.
  set (mh := m_model_human_set st) in *.
  assert (Hsplit : ms = (ms ∖ (mm ∪ mh)) ∪ ((ms ∩ mm) ∪ (ms ∩ mh))).
  { apply set_eq. intros g.
    rewrite !elem_of_union, elem_of_difference, !elem_of_intersection,
      elem_of_union.
    destruct (decide (g ∈ mm)), (decide (g ∈ mh)); tauto. }
  assert (Hsize : size ms
                  = (size (ms ∖ (mm ∪ mh))
                     + (size (ms ∩ mm) + size (ms ∩ mh)))%nat).
  { rewrite Hsplit at 1.
    rewrite size_union by set_solver.
    rewrite (size_union (ms ∩ mm)) by set_solver. done. }
  lia.
Qed.

Lemma one_species_count_spec_witness :
  ∃ ms, m_all_models scenario_final !! "A" = Some ms
        ∧ 0%Z = Z.of_nat
                  (size (ms ∖ (m_multi_model_set scenario_final
                               ∪ m_model_human_set scenario_final))).
Proof.
  apply (one_species_count_spec Scenario.human_genes Scenario.any_evidence
           Scenario.solr Scenario.taxon_map scenario_final "A" 0).
  - vm_compute. reflexivity.
  - vm_compute. reflexivity.
Defined.

End RunFacts.


(** * More of the causal association extractor (source lines 240-251) *)

Module CausalOrderFacts.
Import Causal CausalNotions CausalFacts.

(** X11: the extraction does not depend on the order of the records or
    on how often a record is returned: two lists with the same records give
    the same result set from the same starting set. *)
Theorem causal_docs_order_free (result_set : gset string)
    (ds1 ds2 : list doc) :
  (∀ d, d ∈ ds1 ↔ d ∈ ds2) →
  foldl causal_doc result_set ds1 = foldl causal_doc result_set ds2.
Proof.
  intros Hsame. apply set_eq. intros g.
  rewrite !causal_docs_member. split.
  - intros [?|(d & Hin & ?)]; [by left|]. right. exists d.
    split; [by apply Hsame|done].
  - intros [?|(d & Hin & ?)]; [by left|]. right. exists d.
    split; [by apply Hsame|done].
Qed.

Lemma causal_docs_order_free_witness :
  foldl causal_doc ∅
    [ Doc "HGNC:1" None None None;
      Doc "HGNC:2" (Some likely_pathogenic) None None ]
  = foldl causal_doc ∅
      [ Doc "HGNC:2" (Some likely_pathogenic) None None;
        Doc "HGNC:1" None None None;
        Doc "HGNC:1" None None None ].
Proof.
  apply causal_docs_order_free. intros d.
  rewrite !elem_of_cons. pose proof (elem_of_nil d). tauto.
Defined.

End CausalOrderFacts.


(** * The whole of [main] (source lines 41-91) *)

Module DriverFacts.
Import Engine EngineNotions EngineFacts Causal CausalFacts Adapters Driver
  DriverNotions.


Lemma stats_loop_result (sv : services)
    (human_genes human_genes_pheno : gset string)
    (taxon_map : list (string * string)) :
  ∀ st,
    (stats_loop sv human_genes human_genes_pheno taxon_map st).2
    = main_loop human_genes human_genes_pheno (stats_feed sv) taxon_map st.
Proof.
  induction taxon_map as [|[taxon taxon_iri] rest IH]; intros st;
    cbn [stats_loop main_loop]; [done|].
  destruct (get_model_gene_stats _ _ _ _ _ _) as [r|]; [|done].
  rewrite <- IH. by destruct (stats_loop _ _ _ rest _).
Qed.

(** Every organism of a completed run has its set in [all_models]. *)
Lemma main_loop_keys (human_genes human_genes_pheno : gset string)
    (solr : string → list response) (taxon_map : list (string * string)) :
  ∀ st0 st,
    main_loop human_genes human_genes_pheno solr taxon_map st0 = Some st →
    (∀ taxon, is_Some (m_all_models st0 !! taxon) →
              is_Some (m_all_models st !! taxon))
    ∧ (∀ taxon taxon_iri, (taxon, taxon_iri) ∈ taxon_map →
                          is_Some (m_all_models st !! taxon)).
Proof.
  induction taxon_map as [|[taxon taxon_iri] rest IH]; intros st0 st;
    cbn [main_loop].
  - intros [= <-]. split; [done|]. by intros ? ? ?%elem_of_nil.
  - destruct (get_model_gene_stats _ _ _ _ _ _) as [r|]; [|done].
    intros Hrest. destruct (IH _ _ Hrest) as [Hkeep Hall].
    cbn [m_all_models] in Hkeep. split.
    + intros t Ht. apply Hkeep. rewrite lookup_insert. by case_decide.
    + intros t i [[= -> ->]|Hin]%elem_of_cons; [|by apply (Hall t i)].
      apply Hkeep. by rewrite lookup_insert_eq.
Qed.


(** X13: the report of a completed run.  When [main] reaches its end, the
    last lines it printed are the report of the classification run on the
    set returned by [get_human_genes] and on the phenotype list of the
    human taxon; in it the human-only count is not negative and adds up
    with the models-plus-human count to the number of human genes with a
    phenotype, and every organism has an exclusive count, which is not
    negative. *)
Theorem main_report_consistent (sv : services)
    (taxon_map : list (string * string)) (out : list line) :
  Driver.main sv taxon_map = (out, true) →
  let human_genes := get_human_genes (human_rows sv) in
  let human_genes_pheno :=
    get_gene_phenotype_list (facets sv "NCBITaxon:9606") in
  ∃ before st,
    out = (before ++ report_lines human_genes_pheno taxon_map st)%list
    ∧ main_loop human_genes human_genes_pheno (stats_feed sv) taxon_map
        main_init = Some st
    ∧ (0 ≤ human_only_count human_genes_pheno st)%Z
    ∧ (Z.of_nat (size (m_model_human_set st))
       + human_only_count human_genes_pheno st
       = Z.of_nat (size human_genes_pheno))%Z
    ∧ Forall (λ entry, ∃ n, one_species_count st entry.1 = Some n
                            ∧ (0 ≤ n)%Z) taxon_map.
Proof.
  unfold Driver.main. intros Hmain. cbv zeta.
  destruct (get_causal_gene_phenotype_assocs (causal_feed sv))
    as [human_causal|]; [|done].
  destruct (orthology_loop sv taxon_map) as [out1 [|]]; [|done].
  pose proof (stats_loop_result sv (get_human_genes (human_rows sv))
                (get_gene_phenotype_list (facets sv "NCBITaxon:9606"))
                taxon_map main_init) as Hloop.
  destruct (stats_loop _ _ _ taxon_map main_init) as [out2 [st|]];
    [|done].
  cbn [snd] in Hloop. symmetry in Hloop. injection Hmain as <-.
  eexists _, st. split; [by rewrite !app_assoc, !app_comm_cons|].
  split; [done|].
  pose proof (main_loop_sound _ _ _ _ _ Hloop) as (Hmh & Hmm & _).
  pose proof (subseteq_size _ _ Hmh) as Hsize.
  unfold human_only_count. split_and!; [lia|lia|].
  apply Forall_forall. intros [taxon taxon_iri] Hin. cbn [fst].
  destruct (main_loop_keys _ _ _ _ _ _ Hloop) as [_ Hkeys].
  destruct (Hkeys taxon taxon_iri Hin) as [ms Hms].
  unfold one_species_count. rewrite Hms. eexists. split; [done|].
  assert (Hd : m_multi_model_set st ## m_model_human_set st).
  { clear -Hmh Hmm. set_solver. }
  pose proof (intersections_within ms _ _ Hd). lia.
Qed.

Lemma main_report_consistent_witness :
  let human_genes := get_human_genes (human_rows demo_services) in
  let human_genes_pheno :=
    get_gene_phenotype_list (facets demo_services "NCBITaxon:9606") in
  ∃ before st,
    (Driver.main demo_services Scenario.taxon_map).1
    = (before ++ report_lines human_genes_pheno Scenario.taxon_map st)%list
    ∧ main_loop human_genes human_genes_pheno (stats_feed demo_services)
        Scenario.taxon_map main_init = Some st
    ∧ (0 ≤ human_only_count human_genes_pheno st)%Z
    ∧ (Z.of_nat (size (m_model_human_set st))
       + human_only_count human_genes_pheno st
       = Z.of_nat (size human_genes_pheno))%Z
    ∧ Forall (λ entry, ∃ n, one_species_count st entry.1 = Some n
                            ∧ (0 ≤ n)%Z) Scenario.taxon_map.
Proof.
  apply (main_report_consistent demo_services Scenario.taxon_map
           (Driver.main demo_services Scenario.taxon_map).1).
  vm_compute. reflexivity.
Defined.

End DriverFacts.


(** * More of the store model: the witness of the agreement, and what a
    call does to an input that is also an accumulator *)

Module StoreAliasFacts.
Import Store StoreNotions StoreFacts.

Lemma main_agrees_witness :
  (λ out, main_view out.1 out.2)
    <$> main_loop 1%positive 2%positive EngineNotions.Scenario.solr
          EngineNotions.Scenario.taxon_map
          (main_init two_inputs).1 (main_init two_inputs).2
  = Engine.main_loop (contents two_inputs 1%positive)
      (contents two_inputs 2%positive) EngineNotions.Scenario.solr
      EngineNotions.Scenario.taxon_map Engine.main_init.
Proof.
  apply (main_agrees 1%positive 2%positive EngineNotions.Scenario.solr
           EngineNotions.Scenario.taxon_map two_inputs).
  - apply (bool_decide_unpack _). vm_compute. exact I.
  - apply (bool_decide_unpack _). vm_compute. exact I.
Defined.

Lemma grows_refl (σ : store) : grows σ σ.
Proof. by intros l. Qed.

Lemma grows_trans (σ1 σ2 σ3 : store) :
  grows σ1 σ2 → grows σ2 σ3 → grows σ1 σ3.
Proof. intros H12 H23 l. etrans; [apply H12|apply H23]. Qed.

Lemma grows_set_add (σ : store) (l : loc) (g : string) :
  grows σ (set_add σ l g).
Proof.
  intros l'. destruct (decide (l = l')) as [<-|Hne].
  - rewrite contents_set_add_eq. apply union_subseteq_r.
  - by rewrite contents_set_add_ne.
Qed.

Lemma grows_set_new (σ : store) : grows σ (set_new σ).2.
Proof.
  intros l. destruct (decide (l ∈ dom σ)) as [Hin|Hout].
  - by rewrite contents_set_new_old.
  - unfold contents at 1. apply not_elem_of_dom in Hout. rewrite Hout.
    apply empty_subseteq.
Qed.

Section Shared.

Variables human_genes shared : loc.
Variable res : results.
Hypothesis Hshared : model_only res = shared.

Abbreviation classify_ortholog :=
  (classify_ortholog human_genes shared res).
Abbreviation classify_doc := (classify_doc human_genes shared res).

Lemma shared_ortholog_grows (σ : store) (b : bool) (x : string) :
  grows σ (classify_ortholog (σ, b) x).1.
Proof.
  apply writes_ortholog;
    eauto using grows_refl, grows_trans, grows_set_add.
Qed.

(** The member examined is in the shared object afterwards. *)
Lemma shared_ortholog_here (σ : store) (b : bool) (g : string) :
  g ∈ contents σ human_genes →
  g ∈ contents (classify_ortholog (σ, b) g).1 shared.
Proof.
  intros Hg. unfold Store.classify_ortholog. rewrite Hshared.
  destruct (decide (g ∈ contents σ shared)) as [Hin|Hout]; cbn [fst].
  - by apply grows_set_add, grows_set_add.
  - rewrite decide_True by done.
    destruct (decide (g ∈ contents (set_add σ (model_set res) g) shared));
      cbn [fst].
    + by apply grows_set_add.
    + rewrite contents_set_add_eq. apply elem_of_union. left.
      by apply elem_of_singleton.
Qed.

Lemma shared_closure (l : list string) (g : string) :
  ∀ σ b,
    grows σ (foldl classify_ortholog (σ, b) l).1
    ∧ (g ∈ l → g ∈ contents σ human_genes →
       g ∈ contents (foldl classify_ortholog (σ, b) l).1 shared).
Proof.
  induction l as [|x l IH]; intros σ b; cbn [foldl].
  - split; [apply grows_refl|]. by intros ?%elem_of_nil.
  - pose proof (shared_ortholog_grows σ b x) as Hx.
    pose proof (shared_ortholog_here σ b x) as Hhere.
    destruct (classify_ortholog (σ, b) x) as [σ1 b1]. cbn [fst] in *.
    destruct (IH σ1 b1) as [Hgrow Hmem]. split.
    + by eapply grows_trans.
    + intros [->|Hin]%elem_of_cons Hg.
      * by apply Hgrow, Hhere.
      * apply Hmem; [done|]. by apply Hx.
Qed.

Lemma shared_docs (ds : list doc) (g : string) :
  ∀ σ,
    grows σ (foldl classify_doc σ ds)
    ∧ (g ∈ RunNotions.closures ds → g ∈ contents σ human_genes →
       g ∈ contents (foldl classify_doc σ ds) shared).
Proof.
  unfold RunNotions.closures.
  induction ds as [|d ds IH]; intros σ; cbn [foldl].
  - split; [apply grows_refl|]. by intros ?%elem_of_nil.
  - assert (Hd : grows σ (classify_doc σ d)
                 ∧ (g ∈ EngineNotions.closure_of d →
                    g ∈ contents σ human_genes →
                    g ∈ contents (classify_doc σ d) shared)).
    { unfold Store.classify_doc, EngineNotions.closure_of.
      destruct (subject_ortholog_closure d) as [l|]; simpl.
      - destruct (shared_closure l g σ false) as [Hgrow Hmem].
        destruct (foldl classify_ortholog (σ, false) l) as [σ1 []];
          cbn [fst] in *; [done|]. split.
        + eapply grows_trans; [done|apply grows_set_add].
        + intros Hin Hg. by apply grows_set_add, Hmem.
      - split; [apply grows_set_add|]. by intros ?%elem_of_nil. }
    destruct Hd as [Hgrow Hmem]. destruct (IH (classify_doc σ d))
      as [Hgrow' Hmem'].
    split; [by eapply grows_trans|].
    rewrite bind_cons. intros [Hin|Hin]%elem_of_app Hg.
    + by apply Hgrow', Hmem.
    + apply Hmem'; [done|]. by apply Hgrow.
Qed.

Lemma shared_pages (feed : list response) :
  ∀ start resultCount σ,
    stats_pages human_genes shared res feed start resultCount σ
    = foldl classify_doc σ <$> pages_read feed start resultCount.
Proof.
  induction feed as [|resp feed IH]; intros start rc σ; simpl;
    destruct (start <? rc)%Z; try done.
  rewrite IH.
  destruct (pages_read feed (start + rows) (numFound resp)) as [ds|];
    simpl; [|done].
  by rewrite foldl_app.
Qed.

End Shared.

(** X15: what the frame property excludes.  When the object passed as
    AnyEvidenceSet is also the one passed as the accumulator modelOnly, a
    call writes into its input: every closure member read that is in
    humanGenes is in that object after the call, so a member that was not
    in it before has changed it. *)
Theorem shared_input_is_written
    (feed : list response) (human_genes shared : loc)
    (model_human_set0 multi_model_set0 : loc)
    (σ σ' : store) (res : results) (ds : list doc) (g : string) :
  get_model_gene_stats feed human_genes shared
    model_human_set0 shared multi_model_set0 σ = Some (res, σ') →
  pages_read feed 0%Z rows = Some ds →
  g ∈ RunNotions.closures ds →
  g ∈ contents σ human_genes →
  g ∉ contents σ shared →
  g ∈ contents σ' shared ∧ contents σ' shared ≠ contents σ shared.
Proof.
  unfold get_model_gene_stats. intros Hcall Hread Hin Hg Hout.
  pose proof (grows_set_new σ) as G1.
  destruct (set_new σ) as [l1 σ1]. cbn [snd] in G1.
  pose proof (grows_set_new σ1) as G2.
  destruct (set_new σ1) as [l2 σ2]. cbn [snd] in G2.
  rewrite shared_pages, Hread in Hcall. simpl in Hcall.
  injection Hcall as <- <-.
  assert (Hin' : g ∈ contents
                   (foldl (classify_doc human_genes shared
                             (Results l1 shared model_human_set0
                                      multi_model_set0 l2)) σ2 ds) shared).
  { apply shared_docs; [done|done|]. by apply G2, G1. }
  split; [done|]. intros Heq. apply Hout. by rewrite <- Heq.
Qed.

Lemma shared_input_is_written_witness :
  "H3" ∈ contents shared_outcome.2 2%positive
  ∧ contents shared_outcome.2 2%positive ≠ contents shared_sets 2%positive.
Proof.
  apply (shared_input_is_written one_page 1%positive 2%positive 3%positive
           5%positive shared_sets shared_outcome.2 shared_outcome.1
           (docs (Response 2 [ Doc "m1" None None (Some ["H1"; "H3"]);
                               Doc "m2" None None (Some ["H3"; "X"]) ]))
           "H3").
  - vm_compute. reflexivity.
  - vm_compute. reflexivity.
  - apply (bool_decide_unpack _). vm_compute. exact I.
  - apply (bool_decide_unpack _). vm_compute. exact I.
  - apply (bool_decide_unpack _). vm_compute. exact I.
Defined.

End StoreAliasFacts.
